(** * Mbed Cloud SDK, Connect API: the notification coordinator

    A shallow embedding of [src/connect/connectApi.ts]: the dispatcher
    [notify], the async-response correlator [_asyncFns], the per-resource
    subscription registry [_notifyFns], the pull loop
    ([startNotifications], [stopNotifications]), the webhook registry
    ([getWebhook], [updateWebhook], [deleteWebhook]), the resource
    operations that file a completion callback ([getResourceValue],
    [setResourceValue], [executeResource], [addResourceSubscription],
    [deleteResourceSubscription]; [deleteResource], which does not) and
    the lookups [listResources], [getResource] and [listMetrics].

    The object [this] is a record passed explicitly; the side effects of
    [notify] (events emitted, callbacks invoked) are written to a trace by
    a small state, writer and exception monad: a dispatch can throw, and
    what follows the throw does not run.  The two registries are plain
    JavaScript objects, so a read also sees what the prototype chain
    holds.  The asynchronous part is an event loop: transport requests in
    flight and timers wait in the [world] with their continuation, and
    the environment decides when each one runs. *)

From stdpp Require Import gmap strings list sorting.
From Stdlib Require Import ZArith Ascii.

Open Scope Z_scope.

(** ** JavaScript values *)

(** A user-supplied function (a subscription callback, a completion
    callback, the settle function of a promise) is opaque: the model knows
    it by an identifier and records its invocations.  A call to it is one
    atomic effect: it returns normally and does not call back into the
    object before it returns. *)
Definition fnId := nat.

(** [x ? a : b] and [x || y] on an optional string: [undefined], [null] and
    the empty string are falsy. *)
Definition truthy (x : option string) : bool :=
  match x with
  | Some s => negb (String.eqb s "")
  | None => false
  end.

(** The first argument of [new SDKError(message, ...)] in [notify] is
    [response.error || response.status]: a string or a number. *)
Inductive jsMessage :=
| MsgString (s : string)
| MsgNumber (n : Z).

(** The arguments of [new SDKError(message, innerError, details, code)];
    the class itself (common/sdkError) only stores them. *)
Record SDKError := {
  message : jsMessage;
  innerError : option string;
  details : option string;
  code : option Z;
}.

(** ** The notification batch ([NotificationObject]) *)

(** One element of [data.notifications]. *)
Record NotificationData := {
  ep : string;
  path : string;
  ct : option string;
  payload : option string;
}.

(** One element of [data["async-responses"]]. *)
Record AsyncResponse := {
  id : string;
  status : Z;
  error : option string;
  r_ct : option string;
  r_payload : option string;
}.

(** ** What a plain object inherits *)

(** [_asyncFns] and [_notifyFns] are created as [{}]: [obj[key]] is the
    own property under [key] when there is one, and otherwise whatever
    the prototype chain holds under that name.  For a name other than
    "__proto__" the chain holds one of: *)
Inductive inheritedValue :=
| NotInherited          (* nothing: the read gives undefined *)
| InheritedFalsy        (* a falsy value (0, the empty string, ...) *)
| InheritedNotCallable  (* a truthy value that is not a function *)
| InheritedFunction     (* a function of the runtime (Object.prototype.valueOf, ...) *)
| InheritedThrows.      (* an accessor whose getter throws *)

(** The arguments the object passes to what it read from a registry:
    [fn(body)] for a subscription callback, [fn(error, data)] for a
    completion callback; [V] is the type of decoded payloads. *)
Inductive callArguments (V : Type) :=
| NotifyArguments (body : option V)
| DoneArguments (err : option SDKError) (data : option V).
Arguments NotifyArguments {V} body.
Arguments DoneArguments {V} err data.

(** The collaborators of the coordinator that are outside
    [connectApi.ts].  First the payload decoder of common/functions and
    the adapters of connect/models: pure transforms.  Then the JavaScript
    runtime, as far as a read, a write or a call on a registry can reach
    it:
    - [objectPrototype key] is what [Object.prototype] holds under [key]
      (a name other than "__proto__");
    - [functionProperty f key] is what an object whose prototype is the
      caller's function [f] inherits under [key]: from [f] itself, from
      [Function.prototype] or from [Object.prototype];
    - [inheritedWritable f key] tells whether that inherited property
      lets an assignment create an own property (a read-only one, or an
      accessor whose setter throws, does not: the assignment throws, the
      code being in strict mode);
    - [inheritedReturns proto key args] tells whether the inherited
      function under [key], called with [args] and no receiver, returns
      rather than throws ([proto] is the function standing as prototype,
      if any);
    - no property of [Object.prototype] has a slash in its name.
    Every result below holds whatever these are. *)
Class Collaborators := {
  value : Type;
  decodeBase64 : string → option string → value;
  rawDevice : Type;
  deviceEvent : Type;
  DeviceEventAdapter_map : rawDevice → deviceEvent;
  rawWebhook : Type;
  Webhook : Type;
  WebhookAdapter_map : rawWebhook → Webhook;
  objectPrototype : string → inheritedValue;
  functionProperty : fnId → string → inheritedValue;
  inheritedWritable : fnId → string → bool;
  inheritedReturns : option fnId → string → callArguments value → bool;
  objectPrototype_slash : ∀ deviceId resourcePath : string,
    objectPrototype (deviceId +:+ "/" +:+ resourcePath) = NotInherited;
}.

(** How a piece of code ends: it returns, or it throws (a TypeError, in
    all that the object does itself). *)
Inductive completion (A : Type) :=
| Normal (a : A)
| Thrown.
Arguments Normal {A} a.
Arguments Thrown {A}.

Section Connect.
Context `{Collaborators}.

(** Each field is optional; an empty array is present (and truthy). *)
Record NotificationObject := {
  notifications : option (list NotificationData);
  registrations : option (list rawDevice);
  reg_updates : option (list rawDevice);
  de_registrations : option (list string);
  registrations_expired : option (list string);
  async_responses : option (list AsyncResponse);
}.

(** What a callback or a listener receives. *)
Inductive jsValue :=
| VDecoded (v : value)
| VString (s : string)
| VWebhook (w : Webhook)
| VAsyncResponses (rs : list AsyncResponse).

Inductive eventArg :=
| NotificationArg (a_id a_path : string) (a_payload : option jsValue)
| DeviceArg (d : deviceEvent)
| DeviceIdArg (deviceId : string).

Definition EVENT_NOTIFICATION : string := "notification".
Definition EVENT_REGISTRATION : string := "registration".
Definition EVENT_REREGISTRATION : string := "reregistration".
Definition EVENT_DEREGISTRATION : string := "deregistration".
Definition EVENT_EXPIRED : string := "expired".

(** The observable side effects of the coordinator's synchronous code. *)
Inductive effect :=
| Emit (event : string) (arg : eventArg)
    (* this.emit(event, arg) *)
| CallNotifyFn (fn : fnId) (body : option jsValue)
    (* fn(body), fn a function of the caller read from _notifyFns *)
| CallFn (fn : fnId) (err : option SDKError) (data : option jsValue)
    (* fn(error, data), fn a completion callback *)
| CallInherited (key : string) (args : callArguments value).
    (* fn(...), fn the function a registry inherits under key *)

(** ** The object *)

(** [_asyncFns] and [_notifyFns] are JavaScript objects used as maps from
    keys to functions.  A finite map holds the own properties, which are
    the functions the object stored itself.  The entry under "__proto__"
    is not an own property: an assignment [obj["__proto__"] = f] makes [f]
    the prototype of [obj] and a read [obj["__proto__"]] gives the
    prototype back, so that entry, when there is one, is the function
    that has replaced [Object.prototype] as prototype. *)
Record ConnectApi := {
  _pollRequest : option nat;
  _asyncFns : gmap string fnId;
  _notifyFns : gmap string fnId;
  handleNotifications : bool;
}.

(** [new ConnectApi(options)]: both maps are [{}], the two other fields are
    undefined. *)
Definition new_ConnectApi : ConnectApi :=
  {| _pollRequest := None; _asyncFns := ∅; _notifyFns := ∅;
     handleNotifications := false |}.

Definition set_pollRequest (r : option nat) (s : ConnectApi) : ConnectApi :=
  {| _pollRequest := r; _asyncFns := _asyncFns s;
     _notifyFns := _notifyFns s; handleNotifications := handleNotifications s |}.

Definition set_asyncFns (m : gmap string fnId) (s : ConnectApi) : ConnectApi :=
  {| _pollRequest := _pollRequest s; _asyncFns := m;
     _notifyFns := _notifyFns s; handleNotifications := handleNotifications s |}.

Definition set_notifyFns (m : gmap string fnId) (s : ConnectApi) : ConnectApi :=
  {| _pollRequest := _pollRequest s; _asyncFns := _asyncFns s;
     _notifyFns := m; handleNotifications := handleNotifications s |}.

Definition set_handleNotifications (b : bool) (s : ConnectApi) : ConnectApi :=
  {| _pollRequest := _pollRequest s; _asyncFns := _asyncFns s;
     _notifyFns := _notifyFns s; handleNotifications := b |}.

(** ** The monad of the synchronous code: state [this], trace of effects,
    exceptions *)

Definition M (A : Type) : Type := ConnectApi → completion A * ConnectApi * list effect.

Definition ret {A} (a : A) : M A := λ s, (Normal a, s, []).

(** What follows a throw does not run. *)
Definition bind {A B} (k : A → M B) (m : M A) : M B :=
  λ s, let '(c, s1, t1) := m s in
       match c with
       | Normal a => let '(b, s2, t2) := k a s1 in (b, s2, t1 ++ t2)
       | Thrown => (Thrown, s1, t1)
       end.

#[global] Instance M_ret : MRet M := @ret.
#[global] Instance M_bind : MBind M := @bind.

Definition this : M ConnectApi := λ s, (Normal s, s, []).
Definition update (f : ConnectApi → ConnectApi) : M unit := λ s, (Normal tt, f s, []).
Definition tell (e : effect) : M unit := λ s, (Normal tt, s, [e]).
Definition throw {A} : M A := λ s, (Thrown, s, []).

(** [xs.forEach(f)] *)
Fixpoint forEach {A} (f : A → M unit) (xs : list A) : M unit :=
  match xs with
  | [] => mret tt
  | x :: xs' => f x ;; forEach f xs'
  end.

(** [if (field) field.forEach(f)] *)
Definition ifPresent {A} (field : option (list A)) (f : A → M unit) : M unit :=
  match field with
  | Some xs => forEach f xs
  | None => mret tt
  end.

Definition stateOf {A} (r : A * ConnectApi * list effect) : ConnectApi := r.1.2.
Definition traceOf {A} (r : A * ConnectApi * list effect) : list effect := r.2.

(** Whether the code returned. *)
Definition returns {A} (r : completion A * ConnectApi * list effect) : bool :=
  match r.1.1 with
  | Normal _ => true
  | Thrown => false
  end.

(** ** [normalizePath] *)

(** [path && path.charAt(0) === "/" ? path.substr(1) : path] *)
Definition normalizePath (path : string) : string :=
  match path with
  | String c rest => if Ascii.eqb c "/"%char then rest else path
  | EmptyString => path
  end.

(** ** Reading, writing and deleting properties of a registry *)

(** What a read [obj[key]] gives. *)
Inductive property :=
| Callback (fn : fnId)           (* a function of the caller *)
| Inherited (v : inheritedValue).

(** What the prototype chain holds under [key]; [proto] is the function
    that stands as prototype, [None] for [Object.prototype]. *)
Definition inheritedAt (proto : option fnId) (key : string) : inheritedValue :=
  match proto with
  | None => objectPrototype key
  | Some f => functionProperty f key
  end.

(** [obj[key]]: the entry when there is one; otherwise, under "__proto__",
    the prototype, which is then [Object.prototype] itself (an object: truthy,
    not a function), and under any other name whatever is inherited. *)
Definition getProperty (proto : option fnId) (obj : gmap string fnId) (key : string)
    : property :=
  match obj !! key with
  | Some fn => Callback fn
  | None =>
      if decide (key = "__proto__") then Inherited InheritedNotCallable
      else Inherited (inheritedAt proto key)
  end.

(** [const fn = obj[key]] *)
Definition readProperty (proto : option fnId) (obj : gmap string fnId) (key : string)
    : M property :=
  match getProperty proto obj key with
  | Inherited InheritedThrows => throw
  | fn => mret fn
  end.

(** [if (fn)] *)
Definition truthyProperty (fn : property) : bool :=
  match fn with
  | Callback _ => true
  | Inherited InheritedNotCallable => true
  | Inherited InheritedFunction => true
  | Inherited _ => false
  end.

(** [fn(...)] for a truthy [fn] that was read under [key]: a function of
    the caller is called, which is the effect [call fn]; an inherited
    function is called and returns or throws; calling anything else
    throws. *)
Definition callProperty (proto : option fnId) (key : string) (fn : property)
    (call : fnId → effect) (args : callArguments value) : M unit :=
  match fn with
  | Callback f => tell (call f)
  | Inherited InheritedFunction =>
      tell (CallInherited key args) ;;
      if inheritedReturns proto key args then mret tt else throw
  | Inherited _ => throw
  end.

(** Whether [obj[key] = fn] goes through.  Under "__proto__" it sets the
    prototype.  Under another name it writes the own property, creating
    it if need be; the properties of [Object.prototype] do not stand in
    the way, those inherited through a function may. *)
Definition assignable (obj : gmap string fnId) (key : string) : bool :=
  match obj !! key with
  | Some _ => true
  | None =>
      if decide (key = "__proto__") then true
      else match obj !! "__proto__" with
           | Some f =>
               match functionProperty f key with
               | NotInherited => true
               | _ => inheritedWritable f key
               end
           | None => true
           end
  end.

(** [delete obj[key]]: own properties only; the prototype stays. *)
Definition deleteProperty (key : string) (obj : gmap string fnId) : gmap string fnId :=
  if decide (key = "__proto__") then obj else delete key obj.

(** The payload as the runtime's functions see it. *)
Definition decoded (body : option jsValue) : option value :=
  match body with
  | Some (VDecoded v) => Some v
  | _ => None
  end.

(** ** [notify] *)

(** [payload ? decodeBase64(payload, ct) : null] *)
Definition decodeBody (payload ct : option string) : option jsValue :=
  match payload with
  | Some p => if truthy payload then Some (VDecoded (decodeBase64 p ct)) else None
  | None => None
  end.

(** The body of [data.notifications.forEach].  No assignment to
    [_notifyFns] goes under "__proto__" (the keys it is written at hold a
    slash), so its prototype is [Object.prototype]. *)
Definition onNotification (notification : NotificationData) : M unit :=
  let body := decodeBody (payload notification) (ct notification) in
  let key := ep notification +:+ path notification in
  s ← this;
  fn ← readProperty None (_notifyFns s) key;
  (if truthyProperty fn
   then callProperty None key fn (λ f, CallNotifyFn f body) (NotifyArguments (decoded body))
   else mret tt) ;;
  tell (Emit EVENT_NOTIFICATION
          (NotificationArg (ep notification) (path notification) body)).

(** [new SDKError(response.error || response.status, null, null,
    response.status)] *)
Definition asyncError (response : AsyncResponse) : SDKError :=
  {| message := match error response with
                | Some e => if truthy (error response) then MsgString e
                            else MsgNumber (status response)
                | None => MsgNumber (status response)
                end;
     innerError := None;
     details := None;
     code := Some (status response) |}.

(** The body of [data["async-responses"].forEach]. *)
Definition onAsyncResponse (response : AsyncResponse) : M unit :=
  let asyncID := id response in
  s ← this;
  let proto := _asyncFns s !! "__proto__" in
  fn ← readProperty proto (_asyncFns s) asyncID;
  if truthyProperty fn
  then
    (if bool_decide (400 ≤ status response)
     then let error := asyncError response in
          callProperty proto asyncID fn (λ f, CallFn f (Some error) None)
            (DoneArguments (Some error) None)
     else let body := decodeBody (r_payload response) (r_ct response) in
          callProperty proto asyncID fn (λ f, CallFn f None body)
            (DoneArguments None (decoded body))) ;;
    update (λ s, set_asyncFns (deleteProperty asyncID (_asyncFns s)) s)
  else mret tt.

Definition notify (data : option NotificationObject) : M unit :=
  match data with
  | None => mret tt   (* if (!data) return; *)
  | Some data =>
      ifPresent (notifications data) onNotification ;;
      ifPresent (registrations data) (λ device,
        tell (Emit EVENT_REGISTRATION (DeviceArg (DeviceEventAdapter_map device)))) ;;
      ifPresent (reg_updates data) (λ device,
        tell (Emit EVENT_REREGISTRATION (DeviceArg (DeviceEventAdapter_map device)))) ;;
      ifPresent (de_registrations data) (λ deviceId,
        tell (Emit EVENT_DEREGISTRATION (DeviceIdArg deviceId))) ;;
      ifPresent (registrations_expired data) (λ deviceId,
        tell (Emit EVENT_EXPIRED (DeviceIdArg deviceId))) ;;
      ifPresent (async_responses data) onAsyncResponse
  end.

(** ** Filing a completion callback *)

(** [this._asyncFns[asyncID] = done] *)
Definition fileCallback (asyncID : string) (done : fnId) : M unit :=
  s ← this;
  if assignable (_asyncFns s) asyncID
  then update (λ s, set_asyncFns (<[asyncID := done]> (_asyncFns s)) s)
  else throw.

(** ** Resource subscriptions *)

(** [addResourceSubscription(deviceId, resourcePath, notifyFn, callback)]:
    the path is normalised, the request is sent through [apiWrapper], and
    on a successful response the function below runs ([asyncID] is
    [data["async-response-id"]], [done] settles the caller).  The key
    written in [_notifyFns] holds a slash: it is not "__proto__" and it
    names no property of [Object.prototype], so the assignment creates or
    replaces an own property. *)
Definition addResourceSubscription (deviceId resourcePath : string)
    (notifyFn : option fnId) (asyncID : option string) (done : fnId) : M unit :=
  let resourcePath := normalizePath resourcePath in
  match notifyFn with
  | Some fn =>
      (* Record the function at this path for notifications *)
      update (λ s, set_notifyFns
                     (<[deviceId +:+ "/" +:+ resourcePath := fn]> (_notifyFns s)) s)
  | None => mret tt
  end ;;
  s ← this;
  match asyncID with
  | Some a =>
      if handleNotifications s && truthy asyncID
      then fileCallback a done
      else tell (CallFn done None (Some (VString a)))
  | None => tell (CallFn done None None)
  end.

(** [deleteResourceSubscription(deviceId, resourcePath, callback)], on a
    successful response. *)
Definition deleteResourceSubscription (deviceId resourcePath : string)
    (asyncID : option string) (done : fnId) : M unit :=
  let resourcePath := normalizePath resourcePath in
  (* no-one is listening :( *)
  update (λ s, set_notifyFns
                 (delete (deviceId +:+ "/" +:+ resourcePath) (_notifyFns s)) s) ;;
  s ← this;
  match asyncID with
  | Some a =>
      if handleNotifications s && truthy asyncID
      then fileCallback a done
      else tell (CallFn done None (Some (VString a)))
  | None => tell (CallFn done None None)
  end.

(** ** Resource values *)

(** [getResourceValue(deviceId, resourcePath, cacheOnly, noResponse,
    callback)], on a successful response: [asyncID] is
    [data["async-response-id"]], [done] settles the caller. *)
Definition getResourceValue (asyncID : option string) (done : fnId) : M unit :=
  s ← this;
  match asyncID with
  | Some a =>
      if handleNotifications s && truthy asyncID
      then fileCallback a done
      else tell (CallFn done None (Some (VString a)))
  | None => tell (CallFn done None None)
  end.

(** [setResourceValue(deviceId, resourcePath, value, noResponse, callback)],
    on a successful response. *)
Definition setResourceValue (asyncID : option string) (done : fnId) : M unit :=
  s ← this;
  match asyncID with
  | Some a =>
      if handleNotifications s && truthy asyncID
      then fileCallback a done
      else tell (CallFn done None (Some (VString a)))
  | None => tell (CallFn done None None)
  end.

(** [executeResource(deviceId, resourcePath, functionName, noResponse,
    callback)], on a successful response. *)
Definition executeResource (asyncID : option string) (done : fnId) : M unit :=
  s ← this;
  match asyncID with
  | Some a =>
      if handleNotifications s && truthy asyncID
      then fileCallback a done
      else tell (CallFn done None (Some (VString a)))
  | None => tell (CallFn done None None)
  end.

(** [deleteResource(deviceId, resourcePath, noResponse, callback)], on a
    successful response: [done(null, data[this.ASYNC_KEY])]. *)
Definition deleteResource (asyncID : option string) (done : fnId) : M unit :=
  tell (CallFn done None (VString <$> asyncID)).

(** ** The event loop: transport requests, timers, continuations *)

(** [options] of [startNotifications]; [poll] reads [interval] and
    [requestCallback] from it. *)
Record NotificationOptions := {
  interval : option nat;
  requestCallback : option fnId;
}.

(** The methods of [this._endpoints] the coordinator calls. *)
Inductive endpoint :=
| v2NotificationPullGet
| v2NotificationPullDelete
| v2NotificationCallbackGet
| v2NotificationCallbackPut (url : string) (headers : list (string * string))
| v2NotificationCallbackDelete.

(** Modelled from the spec: [asyncStyle] of common/functions, which is not
    among the sources.  A caller-facing operation "returns a
    future/promise-like handle (or accepts a completion callback)"
    (section 5): in both cases the body receives one function [done], and
    [done(error, value)] hands the error to the caller when [error] is not
    null and the value otherwise.  A [callback] is what can stand for
    [done]: the caller's function (or promise), or the arrow function that
    [startNotifications] passes to [deleteWebhook]. *)
Inductive callback :=
| UserFn (fn : fnId)
| StartContinuation (options : NotificationOptions) (done : fnId).

(** How a call [done(error, value)] settles the caller. *)
Inductive outcome :=
| Resolved (v : option jsValue)
| Rejected (e : SDKError).

Definition settles (err : option SDKError) (data : option jsValue) : outcome :=
  match err with
  | Some e => Rejected e
  | None => Resolved data
  end.

(** The callback given to a transport method, as data: which arrow
    function it is and the variables it closes over. *)
Inductive continuation :=
| PollResponse (options : NotificationOptions)
| StopResponse (done : fnId)
| GetWebhookResponse (done : fnId)
| UpdateWebhookPullDeleted (url : string) (headers : list (string * string)) (done : fnId)
| UpdateWebhookPut (done : fnId)
| DeleteWebhookResponse (done : callback).

(** What the outside can observe, in order. *)
Inductive action :=
| Request (r : nat) (e : endpoint)   (* a transport call; r names the request object *)
| Abort (r : nat)                    (* request.abort() *)
| SetTimeout (t : nat) (delay : nat) (* setTimeout(poll.bind(this), delay) *)
| Effect (e : effect)
| UncaughtTypeError                  (* a property read on null, in the poll callback *)
| UncaughtException.                 (* what a dispatch threw leaves [notify] *)

Record world := {
  api : ConnectApi;
  inflight : gmap nat continuation;     (* requests whose callback has not run *)
  timers : gmap nat NotificationOptions; (* scheduled polls that have not fired *)
  nextRequest : nat;
  nextTimer : nat;
  log : list action;
}.

Definition new_world : world :=
  {| api := new_ConnectApi; inflight := ∅; timers := ∅;
     nextRequest := 0%nat; nextTimer := 0%nat; log := [] |}.

Definition set_api (f : ConnectApi → ConnectApi) (w : world) : world :=
  {| api := f (api w); inflight := inflight w; timers := timers w;
     nextRequest := nextRequest w; nextTimer := nextTimer w; log := log w |}.

Definition set_inflight (m : gmap nat continuation) (w : world) : world :=
  {| api := api w; inflight := m; timers := timers w;
     nextRequest := nextRequest w; nextTimer := nextTimer w; log := log w |}.

Definition set_timers (m : gmap nat NotificationOptions) (w : world) : world :=
  {| api := api w; inflight := inflight w; timers := m;
     nextRequest := nextRequest w; nextTimer := nextTimer w; log := log w |}.

Definition record (a : action) (w : world) : world :=
  {| api := api w; inflight := inflight w; timers := timers w;
     nextRequest := nextRequest w; nextTimer := nextTimer w;
     log := log w ++ [a] |}.

(** Run synchronous code of the object inside the world.  What it throws
    is not caught by the object: it reaches the caller of [notify], or
    the event loop when a transport callback was running. *)
Definition run (m : M unit) (w : world) : world :=
  let '(c, s, t) := m (api w) in
  {| api := s; inflight := inflight w; timers := timers w;
     nextRequest := nextRequest w; nextTimer := nextTimer w;
     log := log w ++ (Effect <$> t)
            ++ match c with
               | Normal _ => []
               | Thrown => [UncaughtException]
               end |}.

(** Call a transport method with callback [k]; the result is the request
    object, here its number. *)
Definition request (e : endpoint) (k : continuation) (w : world) : nat * world :=
  let r := nextRequest w in
  (r, {| api := api w; inflight := <[r := k]> (inflight w); timers := timers w;
         nextRequest := S r; nextTimer := nextTimer w;
         log := log w ++ [Request r e] |}).

(** [request.abort()]: the callback of an aborted request never runs; on
    a request that has completed there is nothing left to cancel. *)
Definition abort (r : nat) (w : world) : world :=
  record (Abort r) (set_inflight (delete r (inflight w)) w).

(** [setTimeout(poll.bind(this), interval || 500)] *)
Definition setTimeout (options : NotificationOptions) (w : world) : world :=
  let t := nextTimer w in
  let delay := match interval options with
               | Some 0%nat | None => 500%nat
               | Some n => n
               end in
  {| api := api w; inflight := inflight w; timers := <[t := options]> (timers w);
     nextRequest := nextRequest w; nextTimer := S t;
     log := log w ++ [SetTimeout t delay] |}.

(** [fn(error, data)] for a function of the caller. *)
Definition callFn (fn : fnId) (err : option SDKError) (data : option jsValue)
    (w : world) : world :=
  record (Effect (CallFn fn err data)) w.

(** *** The pull loop *)

(** [poll()] inside [startNotifications]: the request object is kept in
    [this._pollRequest]. *)
Definition poll (options : NotificationOptions) (w : world) : world :=
  let '(r, w1) := request v2NotificationPullGet (PollResponse options) w in
  set_api (set_pollRequest (Some r)) w1.

(** The callback [(error, data) => {...}] of the poll request.  When the
    dispatch throws, the callback ends there: the request callback is not
    called, handling is not switched off and no poll is scheduled. *)
Definition onPollResponse (options : NotificationOptions)
    (err : option SDKError) (data : option NotificationObject) (w : world) : world :=
  if negb (handleNotifications (api w)) then w else
  let w1 := run (notify data) w in
  if negb (returns (notify data (api w))) then w1 else
  let rest (w2 : world) : world :=
    match err with
    | Some _ => set_api (set_handleNotifications false) w2
    | None => setTimeout options w2
    end in
  (* if (requestCallback && data["async-responses"])
       requestCallback(error, data["async-responses"]); *)
  match requestCallback options with
  | Some cb =>
      match data with
      | Some d =>
          match async_responses d with
          | Some rs => rest (callFn cb err (Some (VAsyncResponses rs)) w1)
          | None => rest w1
          end
      | None => record UncaughtTypeError w1  (* property read on null *)
      end
  | None => rest w1
  end.

(** [done(error, value)] where [done] is a [callback]. *)
Definition invoke (done : callback) (err : option SDKError) (data : option jsValue)
    (w : world) : world :=
  match done with
  | UserFn fn => callFn fn err data w
  | StartContinuation options done' =>
      (* () => { poll.call(this); this.handleNotifications = true; done(null, null); } *)
      let w1 := poll options w in
      let w2 := set_api (set_handleNotifications true) w1 in
      callFn done' None None w2
  end.

(** [deleteWebhook(callback)] *)
Definition deleteWebhook (done : callback) (w : world) : world :=
  (request v2NotificationCallbackDelete (DeleteWebhookResponse done) w).2.

(** Its transport callback [() => { done(null, null); }]. *)
Definition onDeleteWebhookResponse (done : callback) (err : option SDKError)
    (w : world) : world :=
  invoke done None None w.

(** [startNotifications(options, callback)] *)
Definition startNotifications (options : NotificationOptions) (done : fnId)
    (w : world) : world :=
  deleteWebhook (StartContinuation options done) w.

(** [stopNotifications(callback)] *)
Definition stopNotifications (done : fnId) (w : world) : world :=
  (request v2NotificationPullDelete (StopResponse done) w).2.

(** Its transport callback. *)
Definition onStopResponse (done : fnId) (err : option SDKError) (w : world) : world :=
  let w1 := match _pollRequest (api w) with
            | Some r => set_api (set_pollRequest None) (abort r w)
            | None => w
            end in
  let w2 := set_api (set_handleNotifications false) w1 in
  callFn done None None w2.

(** *** The webhook registry *)

(** [getWebhook(callback)] *)
Definition getWebhook (done : fnId) (w : world) : world :=
  (request v2NotificationCallbackGet (GetWebhookResponse done) w).2.

(** Its transport callback [(error, data) => {...}]. *)
Definition onGetWebhookResponse (done : fnId) (err : option SDKError)
    (data : rawWebhook) (w : world) : world :=
  match err with
  | Some e =>
      if bool_decide (code e = Some 404)
      then callFn done None None w   (* No webhook *)
      else callFn done (Some e) None w
  | None =>
      let webhook := WebhookAdapter_map data in
      callFn done None (Some (VWebhook webhook)) w
  end.

(** [updateWebhook(url, headers, callback)] *)
Definition updateWebhook (url : string) (headers : list (string * string))
    (done : fnId) (w : world) : world :=
  (request v2NotificationPullDelete (UpdateWebhookPullDeleted url headers done) w).2.

Definition onUpdateWebhookPullDeleted (url : string) (headers : list (string * string))
    (done : fnId) (w : world) : world :=
  (request (v2NotificationCallbackPut url headers) (UpdateWebhookPut done) w).2.

Definition onUpdateWebhookPut (done : fnId) (err : option SDKError) (w : world) : world :=
  match err with
  | Some e => callFn done (Some e) None w
  | None => callFn done None None w
  end.

(** *** What can happen next *)

Inductive event :=
| CallStartNotifications (options : NotificationOptions) (done : fnId)
| CallStopNotifications (done : fnId)
| CallGetWebhook (done : fnId)
| CallUpdateWebhook (url : string) (headers : list (string * string)) (done : fnId)
| CallDeleteWebhook (done : fnId)
| CallNotify (data : option NotificationObject)
| PullGetResponds (r : nat) (err : option SDKError) (data : option NotificationObject)
| PullDeleteResponds (r : nat) (err : option SDKError)
| CallbackGetResponds (r : nat) (err : option SDKError) (data : rawWebhook)
| CallbackPutResponds (r : nat) (err : option SDKError)
| CallbackDeleteResponds (r : nat) (err : option SDKError)
| TimerFires (t : nat).

(** The response to request [r] arrived: [r] is no longer in flight. *)
Definition completed (r : nat) (w : world) : world :=
  set_inflight (delete r (inflight w)) w.

(** One turn of the event loop; [None] when the event cannot happen (no
    such request in flight, no such timer). *)
Definition exec (ev : event) (w : world) : option world :=
  match ev with
  | CallStartNotifications options done => Some (startNotifications options done w)
  | CallStopNotifications done => Some (stopNotifications done w)
  | CallGetWebhook done => Some (getWebhook done w)
  | CallUpdateWebhook url headers done => Some (updateWebhook url headers done w)
  | CallDeleteWebhook done => Some (deleteWebhook (UserFn done) w)
  | CallNotify data => Some (run (notify data) w)
  | PullGetResponds r err data =>
      match inflight w !! r with
      | Some (PollResponse options) =>
          Some (onPollResponse options err data (completed r w))
      | _ => None
      end
  | PullDeleteResponds r err =>
      match inflight w !! r with
      | Some (StopResponse done) => Some (onStopResponse done err (completed r w))
      | Some (UpdateWebhookPullDeleted url headers done) =>
          Some (onUpdateWebhookPullDeleted url headers done (completed r w))
      | _ => None
      end
  | CallbackGetResponds r err data =>
      match inflight w !! r with
      | Some (GetWebhookResponse done) =>
          Some (onGetWebhookResponse done err data (completed r w))
      | _ => None
      end
  | CallbackPutResponds r err =>
      match inflight w !! r with
      | Some (UpdateWebhookPut done) => Some (onUpdateWebhookPut done err (completed r w))
      | _ => None
      end
  | CallbackDeleteResponds r err =>
      match inflight w !! r with
      | Some (DeleteWebhookResponse done) =>
          Some (onDeleteWebhookResponse done err (completed r w))
      | _ => None
      end
  | TimerFires t =>
      match timers w !! t with
      | Some options => Some (poll options (set_timers (delete t (timers w)) w))
      | None => None
      end
  end.

(** A schedule: the events in the order they happen. *)
Fixpoint execs (evs : list event) (w : world) : option world :=
  match evs with
  | [] => Some w
  | ev :: evs' =>
      match exec ev w with
      | Some w' => execs evs' w'
      | None => None
      end
  end.

(** ** Reading the traces *)

(** The definitions below are used to state the properties: what each
    part of a batch contributes to the trace of [notify]. *)

(** What one resource notification does when its key is ordinary, read
    off the subscription map [fns]. *)
Definition notificationTrace (fns : gmap string fnId) (n : NotificationData)
    : list effect :=
  let body := decodeBody (payload n) (ct n) in
  match fns !! (ep n +:+ path n) with
  | Some fn => [CallNotifyFn fn body]
  | None => []
  end ++ [Emit EVENT_NOTIFICATION (NotificationArg (ep n) (path n) body)].

Definition registrationTrace (data : NotificationObject) : list effect :=
  (λ device, Emit EVENT_REGISTRATION (DeviceArg (DeviceEventAdapter_map device)))
    <$> default [] (registrations data).

Definition reregistrationTrace (data : NotificationObject) : list effect :=
  (λ device, Emit EVENT_REREGISTRATION (DeviceArg (DeviceEventAdapter_map device)))
    <$> default [] (reg_updates data).

Definition deregistrationTrace (data : NotificationObject) : list effect :=
  (λ deviceId, Emit EVENT_DEREGISTRATION (DeviceIdArg deviceId))
    <$> default [] (de_registrations data).

Definition expiredTrace (data : NotificationObject) : list effect :=
  (λ deviceId, Emit EVENT_EXPIRED (DeviceIdArg deviceId))
    <$> default [] (registrations_expired data).

(** The call a pending callback receives for [response]. *)
Definition asyncCall (fn : fnId) (response : AsyncResponse) : effect :=
  if bool_decide (400 ≤ status response)
  then CallFn fn (Some (asyncError response)) None
  else CallFn fn None (decodeBody (r_payload response) (r_ct response)).

(** The arguments that call carries, as an inherited function sees them. *)
Definition asyncArguments (response : AsyncResponse) : callArguments value :=
  if bool_decide (400 ≤ status response)
  then DoneArguments (Some (asyncError response)) None
  else DoneArguments None (decoded (decodeBody (r_payload response) (r_ct response))).


(** The kind of batch entry an effect comes from, numbered in the order
    the spec gives: 0 resource notification, 1 registration,
    2 re-registration, 3 deregistration, 4 expiration, 5 async response. *)
Definition phase (e : effect) : nat :=
  match e with
  | CallNotifyFn _ _ => 0
  | CallInherited _ (NotifyArguments _) => 0
  | Emit event _ =>
      if decide (event = EVENT_NOTIFICATION) then 0
      else if decide (event = EVENT_REGISTRATION) then 1
      else if decide (event = EVENT_REREGISTRATION) then 2
      else if decide (event = EVENT_DEREGISTRATION) then 3
      else if decide (event = EVENT_EXPIRED) then 4
      else 6
  | CallFn _ _ _ => 5
  | CallInherited _ (DoneArguments _ _) => 5
  end.

Definition inOrder (a b : effect) : Prop := (phase a ≤ phase b)%nat.




(** A key that names nothing on the prototype chain: it is not
    "__proto__" and nothing is inherited under it.  On such keys a
    registry is the finite map of its entries. *)
Definition ordinaryKey (proto : option fnId) (key : string) : Prop :=
  key ≠ "__proto__" ∧ inheritedAt proto key = NotInherited.

(** The key a notification is looked up under, and the id of a response,
    are ordinary. *)
Definition ordinaryNotification (n : NotificationData) : Prop :=
  ordinaryKey None (ep n +:+ path n).

Definition ordinaryResponse (s : ConnectApi) (r : AsyncResponse) : Prop :=
  ordinaryKey (_asyncFns s !! "__proto__") (id r).

(** A batch all of whose keys and ids are ordinary. *)
Definition ordinaryBatch (s : ConnectApi) (data : NotificationObject) : Prop :=
  Forall ordinaryNotification (default [] (notifications data))
  ∧ Forall (ordinaryResponse s) (default [] (async_responses data)).


(** The batch with every absent field replaced by the empty array. *)
Definition allPresent (data : NotificationObject) : NotificationObject :=
  {| notifications := Some (default [] (notifications data));
     registrations := Some (default [] (registrations data));
     reg_updates := Some (default [] (reg_updates data));
     de_registrations := Some (default [] (de_registrations data));
     registrations_expired := Some (default [] (registrations_expired data));
     async_responses := Some (default [] (async_responses data)) |}.

(** How many entries of the five event kinds a batch holds. *)
Definition eventEntries (data : NotificationObject) : nat :=
  (length (default [] (notifications data))
   + length (default [] (registrations data))
   + length (default [] (reg_updates data))
   + length (default [] (de_registrations data))
   + length (default [] (registrations_expired data)))%nat.

(** A call to [startNotifications], and a call to [notify], among the
    events. *)
Definition isStartCall (ev : event) : bool :=
  match ev with CallStartNotifications _ _ => true | _ => false end.

Definition isNotifyCall (ev : event) : bool :=
  match ev with CallNotify _ => true | _ => false end.

(** A start is under way in a table of requests: its delete of the
    webhook has not completed. *)
Definition startPending (m : gmap nat continuation) : Prop :=
  ∃ r options done,
    m !! r = Some (DeleteWebhookResponse (StartContinuation options done)).

(** The poll requests of a table of requests. *)
Definition isPoll (k : continuation) : bool :=
  match k with PollResponse _ => true | _ => false end.

Definition polls (m : gmap nat continuation) : gmap nat continuation :=
  filter (λ rk, isPoll rk.2) m.

(** Poll requests in flight plus polls scheduled: what can still turn
    into a fetch. *)
Definition loops (w : world) : nat :=
  (size (polls (inflight w)) + size (timers w))%nat.

(** An entry of the log that is not the dispatch of a notification: no
    event, no call to what [_notifyFns] gives. *)
Definition quiet (a : action) : bool :=
  match a with
  | Effect (Emit _ _) | Effect (CallNotifyFn _ _)
  | Effect (CallInherited _ (NotifyArguments _)) => false
  | _ => true
  end.

End Connect.

(** ** Resources and metrics of a device *)

(** The adapters of connect/models used by [listResources], [getResource]
    and [listMetrics], and the one field of the raw resource the object
    reads itself ([resource.uri]). *)
Class Models := {
  rawResource : Type;
  uri : rawResource → string;
  Resource : Type;
  ResourceAdapter_map : rawResource → string → Resource;
  rawMetric : Type;
  Metric : Type;
  MetricAdapter_map : rawMetric → Metric;
}.

Section Resources.
Context `{Models}.

(** [listResources(deviceId, callback)], on a successful response: the
    value handed to [done(null, resources)]. *)
Definition listResources (deviceId : string) (data : list rawResource)
    : list Resource :=
  (λ resource, ResourceAdapter_map resource deviceId) <$> data.

(** [new SDKError("Resource not found")] *)
Definition resourceNotFound : SDKError :=
  {| message := MsgString "Resource not found"; innerError := None;
     details := None; code := None |}.

(** [getResource(deviceId, resourcePath, callback)], on a successful
    response: the arguments of the call to [done]. *)
Definition getResource (deviceId resourcePath : string) (data : list rawResource)
    : option SDKError * option Resource :=
  let resourcePath := normalizePath resourcePath in
  let found :=
    List.find (λ resource, bool_decide (normalizePath (uri resource) = resourcePath))
      data in
  match found with
  | None => (Some resourceNotFound, None)
  | Some found => (None, Some (ResourceAdapter_map found deviceId))
  end.

(** [listMetrics(options, callback)], on a successful response: [data] is
    [data.data], the result is the [list] handed to [done(null, list)],
    which stays undefined unless the array is there and not empty. *)
Definition listMetrics (data : option (list rawMetric)) : option (list Metric) :=
  match data with
  | Some (metric :: metrics) => Some (MetricAdapter_map <$> (metric :: metrics))
  | Some [] => None
  | None => None
  end.

End Resources.

(** ** Concrete data *)

(** The names of the properties of [Object.prototype] other than
    "__proto__", all of them functions, and of what a function adds to
    them, by itself or through [Function.prototype]. *)
Definition objectPrototypeNames : list string :=
  ["constructor"; "hasOwnProperty"; "isPrototypeOf"; "propertyIsEnumerable";
   "toLocaleString"; "toString"; "valueOf"; "__defineGetter__";
   "__defineSetter__"; "__lookupGetter__"; "__lookupSetter__"].

(** Whether [key] is one of [names]. *)
Definition named (names : list string) (key : string) : bool :=
  existsb (String.eqb key) names.

Definition standardObjectPrototype (key : string) : inheritedValue :=
  if named objectPrototypeNames key then InheritedFunction else NotInherited.

Definition standardFunctionProperty (f : fnId) (key : string) : inheritedValue :=
  if named ["apply"; "bind"; "call"; "constructor"; "toString"] key
  then InheritedFunction
  else if named ["length"; "prototype"] key then InheritedNotCallable
  else if named ["name"] key then InheritedFalsy
  else if named ["arguments"; "caller"] key then InheritedThrows
  else standardObjectPrototype key.

Definition standardWritable (f : fnId) (key : string) : bool :=
  negb (named ["length"; "name"; "arguments"; "caller"] key).

(** Called without a receiver, [Object] and [Object.prototype.toString]
    return, [isPrototypeOf] returns when its first argument is not an
    object, and the others throw; so does every function that comes
    from [Function.prototype]. *)
Definition standardReturns {V} (proto : option fnId) (key : string)
    (args : callArguments V) : bool :=
  let ofObject :=
    if named ["constructor"; "toString"] key then true
    else if named ["isPrototypeOf"] key
         then match args with
              | DoneArguments (Some _) _ => false
              | _ => true
              end
         else false in
  match proto with
  | None => ofObject
  | Some _ =>
      if named ["apply"; "bind"; "call"; "constructor"; "toString"] key
      then false else ofObject
  end.

Fixpoint hasSlash (s : string) : bool :=
  match s with
  | EmptyString => false
  | String c rest => Ascii.eqb c "/"%char || hasSlash rest
  end.

(** The collaborators of the concrete runs: a decoded payload is the pair
    of the decoder's arguments, the adapters are the identity on strings,
    the runtime is the standard one. *)
Definition symbolic : Collaborators.
Proof.
  refine {|
    value := string * option string;
    decodeBase64 := pair;
    rawDevice := string;
    deviceEvent := string;
    DeviceEventAdapter_map := λ device, device;
    rawWebhook := string;
    Webhook := string;
    WebhookAdapter_map := λ data, data;
    objectPrototype := standardObjectPrototype;
    functionProperty := standardFunctionProperty;
    inheritedWritable := standardWritable;
    inheritedReturns := standardReturns;
    objectPrototype_slash := _;
  |}.
  abstract (
    intros deviceId resourcePath; unfold standardObjectPrototype;
    assert (Hs : hasSlash (deviceId +:+ "/" +:+ resourcePath) = true)
      by (induction deviceId as [|c d IH]; simpl; [done|];
          rewrite IH; by destruct (Ascii.eqb c "/"));
    destruct (named objectPrototypeNames (deviceId +:+ "/" +:+ resourcePath))
      eqn:Hin; [|done];
    apply existsb_exists in Hin as (name & Hname & Heq);
    apply String.eqb_eq in Heq; rewrite Heq in Hs;
    unfold objectPrototypeNames in Hname; simpl in Hname;
    repeat (destruct Hname as [<-|Hname]; [discriminate Hs|]);
    destruct Hname).
Defined.

Definition emptyBatch : @NotificationObject symbolic :=
  {| notifications := None; registrations := None; reg_updates := None;
     de_registrations := None; registrations_expired := None;
     async_responses := None |}.

Definition defaultOptions : NotificationOptions :=
  {| interval := None; requestCallback := None |}.

(** A subscription for device "device", resource "3200/0/5500", callback 5,
    made on a fresh object (no async id in the response). *)
Definition subscribed : ConnectApi :=
  stateOf (addResourceSubscription (H := symbolic)
             "device" "3200/0/5500" (Some 5%nat) None 9%nat new_ConnectApi).



Definition notificationBatch (n : NotificationData) : @NotificationObject symbolic :=
  {| notifications := Some [n]; registrations := None; reg_updates := None;
     de_registrations := None; registrations_expired := None;
     async_responses := None |}.

(** An object with one pending async entry, "a1", callback 3. *)
Definition pending : ConnectApi :=
  set_asyncFns {["a1" := 3%nat]} new_ConnectApi.

Definition okResponse : AsyncResponse :=
  {| id := "a1"; status := 200; error := None;
     r_ct := Some "text/plain"; r_payload := Some "NDI=" |}.

Definition notFoundResponse : AsyncResponse :=
  {| id := "a1"; status := 404; error := Some "not found";
     r_ct := None; r_payload := None |}.

Definition asyncBatch (rs : list AsyncResponse) : @NotificationObject symbolic :=
  {| notifications := None; registrations := None; reg_updates := None;
     de_registrations := None; registrations_expired := None;
     async_responses := Some rs |}.

(** An object with handling on and nothing pending. *)
Definition handling : ConnectApi :=
  set_handleNotifications true new_ConnectApi.


(** The world right after a start has completed on a fresh object: one
    poll request in flight, handling on. *)
Definition polling (options : NotificationOptions) : @world symbolic :=
  invoke (H := symbolic) (StartContinuation options 7%nat) None None new_world.



(** A notification whose device id and path concatenate to "valueOf". *)
Definition valueOfNotification : NotificationData :=
  {| ep := "value"; path := "Of"; ct := None; payload := Some "NDI=" |}.





(** A pull loop whose first poll was answered (timer 0 is set), and the
    same world after stop was called (request 1) and, before the answer
    to that call, the timer fired (poll request 2, now held in
    [_pollRequest]). *)
Definition polledOnce : @world symbolic :=
  default new_world
    (exec (H := symbolic) (PullGetResponds 0 None (Some emptyBatch))
       (polling defaultOptions)).

Definition stopRequested : @world symbolic :=
  default new_world
    (execs (H := symbolic) [CallStopNotifications 8%nat; TimerFires 0] polledOnce).

(** * Properties *)


Section Properties.
Context `{Collaborators}.

(** ** The monad *)

Lemma bind_eq {A B} (m : M A) (k : A → M B) s :
  (m ≫= k) s = let '(c, s1, t1) := m s in
               match c with
               | Normal a => let '(b, s2, t2) := k a s1 in (b, s2, t1 ++ t2)
               | Thrown => (Thrown, s1, t1)
               end.
Proof. reflexivity. Qed.

(** A result is its completion, its state and its trace. *)
Lemma result_eta (r : completion unit * ConnectApi * list effect) :
  r = (if returns r then Normal tt else Thrown, stateOf r, traceOf r).
Proof. by destruct r as [[[[]|] s] t]. Qed.

Lemma seq_state (m k : M unit) s :
  stateOf ((m ;; k) s)
  = if returns (m s) then stateOf (k (stateOf (m s))) else stateOf (m s).
Proof.
  rewrite bind_eq. destruct (m s) as [[[[]|] s1] t1]; simpl; [|done].
  unfold stateOf; simpl. by destruct (k s1) as [[c2 s2] t2].
Qed.

Lemma seq_trace (m k : M unit) s :
  traceOf ((m ;; k) s)
  = traceOf (m s) ++ (if returns (m s) then traceOf (k (stateOf (m s))) else []).
Proof.
  rewrite bind_eq. destruct (m s) as [[[[]|] s1] t1]; simpl.
  - unfold stateOf, traceOf; simpl. by destruct (k s1) as [[c2 s2] t2].
  - unfold traceOf; simpl. by rewrite app_nil_r.
Qed.



(** A loop whose body only emits returns and leaves the object alone. *)
Lemma forEach_tell {A} (g : A → effect) xs s :
  forEach (λ x, tell (g x)) xs s = (Normal tt, s, g <$> xs).
Proof.
  induction xs as [|x xs IH]; simpl; [done|].
  rewrite bind_eq; simpl. by rewrite IH.
Qed.

Lemma ifPresent_tell {A} (g : A → effect) field s :
  ifPresent field (λ x, tell (g x)) s = (Normal tt, s, g <$> default [] field).
Proof. destruct field; simpl; [apply forEach_tell | done]. Qed.

(** ** Properties of a registry *)

Lemma deleteProperty_subseteq k (m : gmap string fnId) : deleteProperty k m ⊆ m.
Proof. unfold deleteProperty. case_decide; [done|apply delete_subseteq]. Qed.

Lemma deleteProperty_proto k (m : gmap string fnId) :
  deleteProperty k m !! "__proto__" = m !! "__proto__".
Proof.
  unfold deleteProperty. case_decide; [done|]. by rewrite lookup_delete_ne.
Qed.


Lemma deleteProperty_ordinary k (m : gmap string fnId) :
  k ≠ "__proto__" → deleteProperty k m = delete k m.
Proof. intros Hk. unfold deleteProperty. by rewrite decide_False. Qed.

Lemma deleteProperty_Some k x fn (m : gmap string fnId) :
  deleteProperty k m !! x = Some fn → m !! x = Some fn.
Proof.
  intros Hx. eapply lookup_weaken; [exact Hx|apply deleteProperty_subseteq].
Qed.

Lemma getProperty_ordinary proto (m : gmap string fnId) key :
  ordinaryKey proto key →
  getProperty proto m key = match m !! key with
                            | Some fn => Callback fn
                            | None => Inherited NotInherited
                            end.
Proof.
  intros [Hk Hi]. unfold getProperty. destruct (m !! key); [done|].
  by rewrite decide_False, Hi.
Qed.

(** A subscription key is ordinary: it holds a slash. *)
Lemma subscription_key_ordinary (d q : string) : ordinaryKey None (d +:+ "/" +:+ q).
Proof.
  split; [|apply objectPrototype_slash].
  intros Heq. assert (Hs : hasSlash (d +:+ "/" +:+ q) = true).
  { clear Heq. induction d as [|c d IH]; simpl; [done|].
    rewrite IH. by destruct (Ascii.eqb c "/"). }
  by rewrite Heq in Hs.
Qed.

(** ** Resource notifications *)

(** All that one resource notification can do. *)
Lemma onNotification_cases n s :
  let body := decodeBody (payload n) (ct n) in
  let key := ep n +:+ path n in
  let event := Emit EVENT_NOTIFICATION (NotificationArg (ep n) (path n) body) in
  let args := NotifyArguments (decoded body) in
  onNotification n s =
  match getProperty None (_notifyFns s) key with
  | Callback fn => (Normal tt, s, [CallNotifyFn fn body; event])
  | Inherited InheritedFunction =>
      if inheritedReturns None key args
      then (Normal tt, s, [CallInherited key args; event])
      else (Thrown, s, [CallInherited key args])
  | Inherited InheritedNotCallable | Inherited InheritedThrows => (Thrown, s, [])
  | Inherited _ => (Normal tt, s, [event])
  end.
Proof.
  intros body key event args. unfold onNotification, readProperty.
  fold body key. rewrite bind_eq; simpl.
  destruct (getProperty None (_notifyFns s) key) as [fn|[]]; try done.
  simpl. unfold callProperty. rewrite !bind_eq; simpl. fold args.
  by destruct (inheritedReturns None key args).
Qed.

Lemma onNotification_state n s : stateOf (onNotification n s) = s.
Proof.
  pose proof (onNotification_cases n s) as Hn. cbv zeta in Hn. rewrite Hn.
  destruct (getProperty _ _ _) as [fn|[]]; try done.
  by destruct (inheritedReturns _ _ _).
Qed.

Lemma forEach_onNotification_state ns s : stateOf (forEach onNotification ns s) = s.
Proof.
  induction ns as [|n ns IH]; simpl; [done|].
  rewrite seq_state, onNotification_state, IH. by destruct (returns _).
Qed.

Lemma ifPresent_onNotification_state field s :
  stateOf (ifPresent field onNotification s) = s.
Proof. destruct field; simpl; [apply forEach_onNotification_state | done]. Qed.

(** A notification whose key has an entry, or is ordinary, does what the
    subscription map says. *)
Lemma onNotification_registered n s fn :
  _notifyFns s !! (ep n +:+ path n) = Some fn →
  onNotification n s = (Normal tt, s, notificationTrace (_notifyFns s) n).
Proof.
  intros Hfn. pose proof (onNotification_cases n s) as Hn. cbv zeta in Hn.
  rewrite Hn. unfold getProperty, notificationTrace. by rewrite Hfn.
Qed.

Lemma onNotification_ordinary n s :
  ordinaryNotification n →
  onNotification n s = (Normal tt, s, notificationTrace (_notifyFns s) n).
Proof.
  intros Ho. pose proof (onNotification_cases n s) as Hn. cbv zeta in Hn.
  rewrite Hn, getProperty_ordinary by done. unfold notificationTrace.
  by destruct (_notifyFns s !! _).
Qed.

Lemma forEach_onNotification ns s :
  Forall ordinaryNotification ns →
  forEach onNotification ns s
  = (Normal tt, s, ns ≫= notificationTrace (_notifyFns s)).
Proof.
  induction 1 as [|n ns Hn _ IH]; simpl; [done|].
  rewrite bind_eq, onNotification_ordinary, IH; done.
Qed.

Lemma ifPresent_onNotification field s :
  Forall ordinaryNotification (default [] field) →
  ifPresent field onNotification s
  = (Normal tt, s, default [] field ≫= notificationTrace (_notifyFns s)).
Proof. destruct field; simpl; [apply forEach_onNotification | done]. Qed.

(** Where the effects of the notification loop come from. *)
Lemma notification_effects ns s e :
  e ∈ traceOf (forEach onNotification ns s) →
  ∃ n, n ∈ ns
       ∧ (e = Emit EVENT_NOTIFICATION
                (NotificationArg (ep n) (path n) (decodeBody (payload n) (ct n)))
          ∨ (∃ fn, _notifyFns s !! (ep n +:+ path n) = Some fn
                   ∧ e = CallNotifyFn fn (decodeBody (payload n) (ct n)))
          ∨ (¬ ordinaryKey None (ep n +:+ path n)
             ∧ e = CallInherited (ep n +:+ path n)
                     (NotifyArguments (decoded (decodeBody (payload n) (ct n)))))).
Proof.
  induction ns as [|n ns IH]; simpl.
  - by intros ?%elem_of_nil.
  - rewrite seq_trace, onNotification_state. intros [Hin|Hin]%elem_of_app.
    + exists n. split; [by left|].
      pose proof (onNotification_cases n s) as Hn. cbv zeta in Hn.
      rewrite Hn in Hin. unfold getProperty in Hin.
      destruct (_notifyFns s !! (ep n +:+ path n)) as [fn|] eqn:Hfn.
      * apply elem_of_cons in Hin as [->|Hin]; [right; left; by exists fn|].
        apply list_elem_of_singleton in Hin. by left.
      * destruct (decide (ep n +:+ path n = "__proto__")) as [Hp|Hp];
          [by apply elem_of_nil in Hin|].
        destruct (inheritedAt None (ep n +:+ path n)) eqn:Hi;
          try (by apply elem_of_nil in Hin);
          try (apply list_elem_of_singleton in Hin; by left).
        assert (Hno : ¬ ordinaryKey None (ep n +:+ path n)).
        { intros [_ Ho]. by rewrite Ho in Hi. }
        destruct (inheritedReturns _ _ _).
        -- apply elem_of_cons in Hin as [->|Hin]; [by right; right|].
           apply list_elem_of_singleton in Hin. by left.
        -- apply list_elem_of_singleton in Hin. by right; right.
    + destruct (returns (onNotification n s)); [|by apply elem_of_nil in Hin].
      apply IH in Hin as (n' & Hn' & He). exists n'. split; [by right|done].
Qed.

(** ** The shape of a dispatch *)

(** [notify] on a batch: the notification loop, which can throw and
    leaves the object alone; if it returns, four loops that only emit,
    then the async-response loop, the only one to change the object. *)
Lemma notify_eq data s :
  notify (Some data) s =
  let r1 := ifPresent (notifications data) onNotification s in
  let r6 := ifPresent (async_responses data) onAsyncResponse s in
  if returns r1
  then (r6.1.1, stateOf r6,
        traceOf r1 ++ registrationTrace data ++ reregistrationTrace data
        ++ deregistrationTrace data ++ expiredTrace data ++ traceOf r6)
  else (Thrown, s, traceOf r1).
Proof.
  unfold notify. rewrite bind_eq.
  pose proof (ifPresent_onNotification_state (notifications data) s) as Hs.
  destruct (ifPresent (notifications data) onNotification s) as [[[[]|] s1] t1];
    unfold stateOf in Hs; simpl in Hs; subst s1; [|done].
  rewrite bind_eq, (ifPresent_tell
    (λ device, Emit EVENT_REGISTRATION (DeviceArg (DeviceEventAdapter_map device)))).
  rewrite bind_eq, (ifPresent_tell
    (λ device, Emit EVENT_REREGISTRATION (DeviceArg (DeviceEventAdapter_map device)))).
  rewrite bind_eq,
    (ifPresent_tell (λ deviceId, Emit EVENT_DEREGISTRATION (DeviceIdArg deviceId))).
  rewrite bind_eq,
    (ifPresent_tell (λ deviceId, Emit EVENT_EXPIRED (DeviceIdArg deviceId))).
  destruct (ifPresent (async_responses data) onAsyncResponse s) as [[c6 s6] t6].
  done.
Qed.

Lemma notify_trace data s :
  traceOf (notify (Some data) s)
  = traceOf (ifPresent (notifications data) onNotification s)
    ++ (if returns (ifPresent (notifications data) onNotification s)
        then registrationTrace data ++ reregistrationTrace data
             ++ deregistrationTrace data ++ expiredTrace data
             ++ traceOf (ifPresent (async_responses data) onAsyncResponse s)
        else []).
Proof.
  rewrite notify_eq. cbv zeta. destruct (returns _); [done|].
  unfold traceOf at 1; simpl. by rewrite app_nil_r.
Qed.



(** With ordinary notification keys the notification loop returns. *)
Lemma notify_ordinary_notifications data s :
  Forall ordinaryNotification (default [] (notifications data)) →
  notify (Some data) s =
  let r := ifPresent (async_responses data) onAsyncResponse s in
  (r.1.1, stateOf r,
   (default [] (notifications data) ≫= notificationTrace (_notifyFns s))
   ++ registrationTrace data ++ reregistrationTrace data
   ++ deregistrationTrace data ++ expiredTrace data ++ traceOf r).
Proof.
  intros Hns. rewrite notify_eq. cbv zeta.
  by rewrite ifPresent_onNotification.
Qed.

(** ** Async responses *)

(** All that one async response can do. *)
Lemma onAsyncResponse_cases r s :
  let m := _asyncFns s in
  let proto := m !! "__proto__" in
  onAsyncResponse r s =
  match getProperty proto m (id r) with
  | Callback fn =>
      (Normal tt, set_asyncFns (deleteProperty (id r) m) s, [asyncCall fn r])
  | Inherited InheritedFunction =>
      if inheritedReturns proto (id r) (asyncArguments r)
      then (Normal tt, set_asyncFns (deleteProperty (id r) m) s,
            [CallInherited (id r) (asyncArguments r)])
      else (Thrown, s, [CallInherited (id r) (asyncArguments r)])
  | Inherited InheritedNotCallable | Inherited InheritedThrows => (Thrown, s, [])
  | Inherited _ => (Normal tt, s, [])
  end.
Proof.
  intros m proto. unfold onAsyncResponse, readProperty.
  fold m proto. rewrite bind_eq; simpl. fold m proto.
  unfold asyncCall, asyncArguments.
  destruct (getProperty proto m (id r)) as [fn|[]]; try done;
    destruct (bool_decide _); simpl; try done;
    unfold callProperty; by destruct (inheritedReturns _ _ _).
Qed.

(** A pending id: the callback is called and the entry deleted. *)
Lemma onAsyncResponse_pending r s fn :
  _asyncFns s !! id r = Some fn →
  onAsyncResponse r s
  = (Normal tt, set_asyncFns (deleteProperty (id r) (_asyncFns s)) s, [asyncCall fn r]).
Proof.
  intros Hfn. pose proof (onAsyncResponse_cases r s) as Hr. cbv zeta in Hr.
  rewrite Hr. unfold getProperty. by rewrite Hfn.
Qed.

(** On an ordinary id the correlator is a finite map. *)
Lemma onAsyncResponse_eq r s :
  ordinaryResponse s r →
  onAsyncResponse r s =
  match _asyncFns s !! id r with
  | Some fn => (Normal tt, set_asyncFns (delete (id r) (_asyncFns s)) s,
                [asyncCall fn r])
  | None => (Normal tt, s, [])
  end.
Proof.
  intros Ho. pose proof (onAsyncResponse_cases r s) as Hr. cbv zeta in Hr.
  rewrite Hr, getProperty_ordinary by done.
  destruct (_asyncFns s !! id r); [|done].
  rewrite deleteProperty_ordinary; [done|apply Ho].
Qed.


Lemma set_asyncFns_set_asyncFns m m' s :
  set_asyncFns m (set_asyncFns m' s) = set_asyncFns m s.
Proof. done. Qed.

(** One response changes nothing but [_asyncFns], and there only deletes
    the entry under its id. *)
Lemma onAsyncResponse_frame r s :
  stateOf (onAsyncResponse r s) = s
  ∨ stateOf (onAsyncResponse r s)
    = set_asyncFns (deleteProperty (id r) (_asyncFns s)) s.
Proof.
  pose proof (onAsyncResponse_cases r s) as Hr. cbv zeta in Hr. rewrite Hr.
  destruct (getProperty _ _ _) as [fn|[]]; auto.
  destruct (inheritedReturns _ _ _); auto.
Qed.









(** Where the effects of the async loop come from: a call goes to the
    callback that is pending under the id of one of the responses, with
    what that response says; an inherited function is only called for an
    id that is not ordinary. *)
Lemma async_effects rs s e :
  e ∈ traceOf (forEach onAsyncResponse rs s) →
  ∃ r, r ∈ rs
       ∧ ((∃ fn, _asyncFns s !! id r = Some fn ∧ e = asyncCall fn r)
          ∨ (¬ ordinaryResponse s r
             ∧ e = CallInherited (id r) (asyncArguments r))).
Proof.
  revert s. induction rs as [|r rs IH]; intros s; simpl.
  - unfold traceOf; simpl. by intros ?%elem_of_nil.
  - rewrite seq_trace. intros [Hin|Hin]%elem_of_app.
    + exists r. split; [by left|].
      pose proof (onAsyncResponse_cases r s) as Hr. cbv zeta in Hr.
      rewrite Hr in Hin. unfold getProperty in Hin.
      destruct (_asyncFns s !! id r) as [fn|] eqn:Hfn.
      * apply list_elem_of_singleton in Hin. left. by exists fn.
      * destruct (decide (id r = "__proto__")) as [Hp|Hp];
          [by apply elem_of_nil in Hin|].
        destruct (inheritedAt (_asyncFns s !! "__proto__") (id r)) eqn:Hi;
          try (by apply elem_of_nil in Hin).
        right. split; [intros [_ Ho]; unfold inheritedAt in *; congruence|].
        destruct (inheritedReturns _ _ _);
          by apply list_elem_of_singleton in Hin.
    + destruct (returns (onAsyncResponse r s)); [|by apply elem_of_nil in Hin].
      apply IH in Hin as (r' & Hr' & He). exists r'. split; [by right|].
      destruct (onAsyncResponse_frame r s) as [Hs|Hs]; rewrite Hs in He;
        [done|]. simpl in He.
      destruct He as [(fn & Hfn & He)|[Ho He]].
      * left. exists fn. split; [|done]. by eapply deleteProperty_Some.
      * right. split; [|done]. intros Ho'. apply Ho.
        unfold ordinaryResponse in *; simpl. by rewrite deleteProperty_proto.
Qed.



(** C3. An async response whose id is pending calls the callback once:
    with status 400 or more, with an error built from the remote error
    text (the status when there is none) and the status as code, and a
    null payload; otherwise with a null error and the decoded payload,
    null when the payload is absent or empty. *)
Theorem async_response_callback r s fn :
  _asyncFns s !! id r = Some fn →
  traceOf (onAsyncResponse r s) =
  [ if bool_decide (400 ≤ status r)
    then CallFn fn
           (Some {| message := match error r with
                               | Some text => if String.eqb text "" then MsgNumber (status r)
                                              else MsgString text
                               | None => MsgNumber (status r)
                               end;
                    innerError := None; details := None;
                    code := Some (status r) |})
           None
    else CallFn fn None
           match r_payload r with
           | Some p => if String.eqb p "" then None
                       else Some (VDecoded (decodeBase64 p (r_ct r)))
           | None => None
           end ].
Proof.
  intros Hfn. rewrite (onAsyncResponse_pending r s fn) by done.
  unfold traceOf; simpl.
  unfold asyncCall, asyncError, decodeBody, truthy.
  destruct (bool_decide _).
  - destruct (error r) as [text|]; [|done]. by destruct (String.eqb text "").
  - destruct (r_payload r) as [p|]; [|done]. by destruct (String.eqb p "").
Qed.

(** C10. [notify] with a null or undefined batch returns at once: nothing
    is emitted, no callback is invoked, and the object, with both maps, is
    what it was. *)
Theorem notify_null s w :
  notify None s = (Normal tt, s, []) ∧ exec (CallNotify None) w = Some w.
Proof.
  split; [done|]. unfold exec, run; simpl.
  destruct w; simpl. by rewrite app_nil_r.
Qed.

(** ** Processing order *)

Lemma StronglySorted_lookup_lt {A} (R : A → A → Prop) l i j x y :
  StronglySorted R l → l !! i = Some x → l !! j = Some y → (i < j)%nat → R x y.
Proof.
  intros Hl. revert i j. induction Hl as [|a l Hl IH Ha]; intros i j Hi Hj Hlt.
  - done.
  - destruct j as [|j]; [lia|]. destruct i as [|i]; simpl in *.
    + injection Hi as <-. rewrite Forall_forall in Ha.
      apply Ha. by eapply list_elem_of_lookup_2.
    + apply (IH i j); [done..|lia].
Qed.

(** A block of one kind followed by an ordered run of later kinds. *)
Lemma inOrder_block k l1 l2 :
  Forall (λ e, phase e = k) l1 →
  Forall (λ e, (k ≤ phase e)%nat) l2 →
  StronglySorted inOrder l2 →
  StronglySorted inOrder (l1 ++ l2) ∧ Forall (λ e, (k ≤ phase e)%nat) (l1 ++ l2).
Proof.
  intros H1 H2 Hs. split.
  - apply StronglySorted_app. split_and!; [|induction H1|done].
    + intros a b Ha Hb. rewrite Forall_forall in H1, H2.
      unfold inOrder. rewrite (H1 a Ha). by apply H2.
    + constructor.
    + constructor; [done|]. eapply Forall_impl; [done|].
      intros b Hb; simpl in Hb. unfold inOrder. lia.
  - apply Forall_app. split; [|done].
    eapply Forall_impl; [done|]. intros a Ha; simpl in Ha. lia.
Qed.

(** Whatever the notification loop does is of the first kind, even what
    it does before it throws. *)
Lemma phase_notificationLoop ns s :
  Forall (λ e, phase e = 0%nat) (traceOf (forEach onNotification ns s)).
Proof.
  apply Forall_forall.
  by intros e (n & _ & [->|[(fn & _ & ->)|[_ ->]]])%notification_effects.
Qed.

Lemma phase_asyncTrace rs s :
  Forall (λ e, phase e = 5%nat) (traceOf (forEach onAsyncResponse rs s)).
Proof.
  apply Forall_forall.
  intros e (r & _ & [(fn & _ & ->)|[_ ->]])%async_effects.
  - unfold asyncCall. by destruct (bool_decide _).
  - unfold asyncArguments. by destruct (bool_decide _).
Qed.

Lemma Forall_weaken_phase (k k' : nat) l :
  (k' ≤ k)%nat → Forall (λ e, (k ≤ phase e)%nat) l → Forall (λ e, (k' ≤ phase e)%nat) l.
Proof. intros Hk Hl. eapply Forall_impl; [done|]. intros e He; simpl in He. lia. Qed.

(** The five blocks that follow the resource notifications are in
    order. *)
Lemma later_blocks_in_order data s :
  let l := registrationTrace data ++ reregistrationTrace data
           ++ deregistrationTrace data ++ expiredTrace data
           ++ traceOf (ifPresent (async_responses data) onAsyncResponse s) in
  StronglySorted inOrder l ∧ Forall (λ e, (1 ≤ phase e)%nat) l.
Proof.
  intros l. subst l.
  assert (H5 : Forall (λ e, phase e = 5%nat)
                 (traceOf (ifPresent (async_responses data) onAsyncResponse s))).
  { destruct (async_responses data); simpl; [apply phase_asyncTrace | constructor]. }
  set (t5 := traceOf (ifPresent (async_responses data) onAsyncResponse s)) in *.
  assert (P5 : StronglySorted inOrder t5 ∧ Forall (λ e, (5 ≤ phase e)%nat) t5).
  { rewrite <-(app_nil_r t5). apply inOrder_block; [done|constructor..]. }
  assert (P4 : StronglySorted inOrder (expiredTrace data ++ t5)
               ∧ Forall (λ e, (4 ≤ phase e)%nat) (expiredTrace data ++ t5)).
  { apply inOrder_block; [|apply (Forall_weaken_phase 5); [lia|]|]; try apply P5.
    apply Forall_fmap, Forall_true; done. }
  assert (P3 : StronglySorted inOrder (deregistrationTrace data ++ expiredTrace data ++ t5)
               ∧ Forall (λ e, (3 ≤ phase e)%nat)
                   (deregistrationTrace data ++ expiredTrace data ++ t5)).
  { apply inOrder_block; [|apply (Forall_weaken_phase 4); [lia|]|]; try apply P4.
    apply Forall_fmap, Forall_true; done. }
  assert (P2 : StronglySorted inOrder
                 (reregistrationTrace data ++ deregistrationTrace data
                  ++ expiredTrace data ++ t5)
               ∧ Forall (λ e, (2 ≤ phase e)%nat)
                   (reregistrationTrace data ++ deregistrationTrace data
                    ++ expiredTrace data ++ t5)).
  { apply inOrder_block; [|apply (Forall_weaken_phase 3); [lia|]|]; try apply P3.
    apply Forall_fmap, Forall_true; done. }
  apply inOrder_block; [|apply (Forall_weaken_phase 2); [lia|]|]; try apply P2.
  apply Forall_fmap, Forall_true; done.
Qed.

(** C8. Within one call to [notify] the effects come in the fixed order
    resource notifications, registrations, re-registrations,
    deregistrations, expirations, async responses: the trace is what the
    notification loop does followed, when that loop returns, by the five
    other blocks in that order (with ordinary keys the loop returns and
    its block is the one the subscription map gives); an effect of an
    earlier kind precedes every effect of a later kind, and in particular
    every deregistration event precedes every expiration event. *)
Theorem notify_order data s :
  let t := traceOf (notify (Some data) s) in
  let first := ifPresent (notifications data) onNotification s in
  t = traceOf first
      ++ (if returns first
          then registrationTrace data ++ reregistrationTrace data
               ++ deregistrationTrace data ++ expiredTrace data
               ++ traceOf (ifPresent (async_responses data) onAsyncResponse s)
          else [])
  ∧ (Forall ordinaryNotification (default [] (notifications data)) →
       t = (default [] (notifications data) ≫= notificationTrace (_notifyFns s))
           ++ registrationTrace data ++ reregistrationTrace data
           ++ deregistrationTrace data ++ expiredTrace data
           ++ traceOf (ifPresent (async_responses data) onAsyncResponse s))
  ∧ StronglySorted inOrder t
  ∧ (∀ i j a b, t !! i = Some a → t !! j = Some b →
       (phase a < phase b)%nat → (i < j)%nat)
  ∧ (∀ i j d x, t !! i = Some (Emit EVENT_DEREGISTRATION (DeviceIdArg d)) →
       t !! j = Some (Emit EVENT_EXPIRED (DeviceIdArg x)) → (i < j)%nat).
Proof.
  intros t first.
  assert (Ht : t = traceOf first
      ++ (if returns first
          then registrationTrace data ++ reregistrationTrace data
               ++ deregistrationTrace data ++ expiredTrace data
               ++ traceOf (ifPresent (async_responses data) onAsyncResponse s)
          else [])) by apply notify_trace.
  assert (Hsorted : StronglySorted inOrder t).
  { rewrite Ht.
    assert (H0 : Forall (λ e, phase e = 0%nat) (traceOf first)).
    { subst first. destruct (notifications data); simpl;
        [apply phase_notificationLoop | constructor]. }
    destruct (later_blocks_in_order data s) as [P1 Q1].
    destruct (returns first).
    - apply (inOrder_block 0); [done|apply (Forall_weaken_phase 1); [lia|done]|done].
    - apply (inOrder_block 0); [done|constructor..]. }
  assert (Hlt : ∀ i j a b, t !! i = Some a → t !! j = Some b →
       (phase a < phase b)%nat → (i < j)%nat).
  { intros i j a b Hi Hj Hph.
    destruct (decide (i < j)%nat) as [|Hge]; [done|]. exfalso.
    destruct (decide (i = j)) as [->|Hne].
    - rewrite Hi in Hj. injection Hj as ->. lia.
    - assert (inOrder b a) as Hba.
      { apply (StronglySorted_lookup_lt inOrder t j i); [done..|lia]. }
      unfold inOrder in Hba. lia. }
  split_and!; [done| |done..|].
  - intros Hns. subst t. by rewrite notify_ordinary_notifications.
  - intros i j d x Hi Hj. apply (Hlt i j _ _ Hi Hj). simpl. lia.
Qed.

(** ** The subscription registry and its key *)



(** Filing a completion callback leaves the subscription map alone. *)
Lemma fileCallback_notifyFns a done s :
  _notifyFns (stateOf (fileCallback a done s)) = _notifyFns s.
Proof.
  unfold fileCallback. rewrite bind_eq; simpl. by destruct (assignable _ _).
Qed.

Lemma addResourceSubscription_notifyFns d p f asyncID done s :
  _notifyFns (stateOf (addResourceSubscription d p (Some f) asyncID done s))
  = <[d +:+ "/" +:+ normalizePath p := f]> (_notifyFns s).
Proof.
  unfold addResourceSubscription. rewrite seq_state.
  unfold returns at 1, stateOf at 2 3; simpl. rewrite bind_eq; simpl.
  destruct asyncID as [a|]; [|done].
  destruct (handleNotifications s && truthy (Some a)); [|done].
  pose proof (fileCallback_notifyFns a done
    (set_notifyFns (<[d +:+ "/" +:+ normalizePath p := f]> (_notifyFns s)) s)) as Hf.
  by destruct (fileCallback a done _) as [[c2 s2] t2].
Qed.



(** A subscription callback that a dispatch calls was registered. *)
Lemma notify_calls_subscribed data s fn body :
  CallNotifyFn fn body ∈ traceOf (notify (Some data) s) →
  ∃ n, n ∈ default [] (notifications data)
       ∧ _notifyFns s !! (ep n +:+ path n) = Some fn
       ∧ body = decodeBody (payload n) (ct n).
Proof.
  rewrite notify_trace. intros [He|He]%elem_of_app.
  - destruct (notifications data) as [ns|]; simpl in He;
      [|by apply elem_of_nil in He].
    apply notification_effects in He as (n & Hn & [?|[(g & Hg & He)|[_ ?]]]);
      [done| |done].
    injection He as -> ->. by exists n.
  - destruct (returns _); [|by apply elem_of_nil in He].
    rewrite !elem_of_app in He. destruct He as [He|[He|[He|[He|He]]]].
    + by apply list_elem_of_fmap in He as (x & ? & _).
    + by apply list_elem_of_fmap in He as (x & ? & _).
    + by apply list_elem_of_fmap in He as (x & ? & _).
    + by apply list_elem_of_fmap in He as (x & ? & _).
    + destruct (async_responses data) as [rs|]; simpl in He;
        [|by apply elem_of_nil in He].
      apply async_effects in He as (r & _ & [(g & _ & He)|[_ ?]]); [|done].
      unfold asyncCall in He. by destruct (bool_decide _).
Qed.

(** A dispatch from an object whose subscription map does not hold [f]
    never invokes [f]. *)
Lemma unsubscribed_never_invoked f s :
  (∀ k, _notifyFns s !! k ≠ Some f) →
  ∀ data body, CallNotifyFn f body ∉ traceOf (notify data s).
Proof.
  intros Hf [data|] body Hin; [|by apply elem_of_nil in Hin].
  apply notify_calls_subscribed in Hin as (n & _ & Hfn & _).
  by apply Hf in Hfn.
Qed.




(** ** The webhook registry *)

Lemma request_inflight e k w :
  inflight (request e k w).2 !! nextRequest w = Some k.
Proof. simpl. apply lookup_insert_eq. Qed.

(** C7. [getWebhook] sends one request; when the backend answers with an
    error whose code is 404 the caller is resolved with null, any other
    error is handed to the caller, and a success resolves to the mapped
    webhook. *)
Theorem getWebhook_outcome done w err data :
  let r := nextRequest w in
  let w1 := getWebhook done w in
  log w1 = log w ++ [Request r v2NotificationCallbackGet]
  ∧ ∃ w2 e v,
      exec (CallbackGetResponds r err data) w1 = Some w2
      ∧ log w2 = log w1 ++ [Effect (CallFn done e v)]
      ∧ settles e v = match err with
                      | Some e' => if decide (code e' = Some 404)
                                   then Resolved None else Rejected e'
                      | None => Resolved (Some (VWebhook (WebhookAdapter_map data)))
                      end
      ∧ api w2 = api w.
Proof.
  intros r w1. split; [done|].
  unfold exec. subst w1 r. unfold getWebhook. rewrite request_inflight.
  unfold onGetWebhookResponse.
  destruct err as [e'|].
  - destruct (decide (code e' = Some 404)) as [Hc|Hc].
    + rewrite bool_decide_eq_true_2 by done. by eexists _, None, None.
    + rewrite bool_decide_eq_false_2 by done. by eexists _, (Some e'), None.
  - by eexists _, None, _.
Qed.

(** C5 (what the code does). [deleteWebhook] sends one delete request and,
    whatever the backend answers, an error with code 404 included, calls
    [done(null, null)]: the caller is resolved, the error is lost. *)
Theorem deleteWebhook_ignores_error done w err :
  let r := nextRequest w in
  let w1 := deleteWebhook (UserFn done) w in
  log w1 = log w ++ [Request r v2NotificationCallbackDelete]
  ∧ ∃ w2,
      exec (CallbackDeleteResponds r err) w1 = Some w2
      ∧ log w2 = log w1 ++ [Effect (CallFn done None None)]
      ∧ settles None None = Resolved None.
Proof.
  intros r w1. split; [done|].
  unfold exec. subst w1 r. unfold deleteWebhook. rewrite request_inflight.
  by eexists.
Qed.

(** Its sibling [updateWebhook] hands the error of the put to the caller. *)
Lemma updateWebhook_propagates url headers done w e :
  ∃ w2, execs [CallUpdateWebhook url headers done;
               PullDeleteResponds (nextRequest w) None;
               CallbackPutResponds (S (nextRequest w)) (Some e)] w = Some w2
        ∧ log w2 = log w ++ [Request (nextRequest w) v2NotificationPullDelete;
                            Request (S (nextRequest w)) (v2NotificationCallbackPut url headers);
                            Effect (CallFn done (Some e) None)].
Proof.
  simpl. rewrite lookup_insert_eq. simpl. rewrite lookup_insert_eq. simpl.
  eexists. split; [done|]. simpl. by rewrite <-!app_assoc.
Qed.

(** ** The pull loop *)

(** C4 (amended). [startNotifications] sends exactly one request, the
    delete of the webhook (the notification callback), and nothing else;
    when that request completes, with or without error, the first poll
    request is sent, then notification handling is enabled and the caller
    is resolved. *)
Theorem startNotifications_deletes_webhook options done w err :
  let r := nextRequest w in
  let w1 := startNotifications options done w in
  log w1 = log w ++ [Request r v2NotificationCallbackDelete]
  ∧ api w1 = api w ∧ timers w1 = timers w
  ∧ ∃ w2,
      exec (CallbackDeleteResponds r err) w1 = Some w2
      ∧ log w2 = log w ++ [Request r v2NotificationCallbackDelete;
                          Request (S r) v2NotificationPullGet;
                          Effect (CallFn done None None)]
      ∧ handleNotifications (api w2) = true
      ∧ _pollRequest (api w2) = Some (S r)
      ∧ inflight w2 !! S r = Some (PollResponse options).
Proof.
  intros r w1. split_and!; [done..|].
  unfold exec. subst w1 r. unfold startNotifications, deleteWebhook.
  rewrite request_inflight. eexists. split; [done|].
  simpl. rewrite <-!app_assoc. split_and!; [done..|].
  apply lookup_insert_eq.
Qed.

End Properties.

(** * Further properties of the object *)

Section Correlation.
Context `{Collaborators}.

(** ** Which functions a dispatch can call *)

(** Where the effects of a dispatch come from. *)
Lemma notify_effects data s e :
  e ∈ traceOf (notify (Some data) s) →
  (∃ n, n ∈ default [] (notifications data)
        ∧ (e = Emit EVENT_NOTIFICATION
                 (NotificationArg (ep n) (path n) (decodeBody (payload n) (ct n)))
           ∨ (∃ fn, _notifyFns s !! (ep n +:+ path n) = Some fn
                    ∧ e = CallNotifyFn fn (decodeBody (payload n) (ct n)))
           ∨ (¬ ordinaryNotification n
              ∧ e = CallInherited (ep n +:+ path n)
                      (NotifyArguments (decoded (decodeBody (payload n) (ct n)))))))
  ∨ (∃ event arg, e = Emit event arg)
  ∨ (∃ r, r ∈ default [] (async_responses data)
          ∧ ((∃ fn, _asyncFns s !! id r = Some fn ∧ e = asyncCall fn r)
             ∨ (¬ ordinaryResponse s r
                ∧ e = CallInherited (id r) (asyncArguments r)))).
Proof.
  rewrite notify_trace. intros [He|He]%elem_of_app.
  - left. destruct (notifications data) as [ns|]; simpl in He;
      [|by apply elem_of_nil in He].
    by apply notification_effects in He.
  - right. destruct (returns _); [|by apply elem_of_nil in He].
    rewrite !elem_of_app in He. destruct He as [He|[He|[He|[He|He]]]].
    + left. apply list_elem_of_fmap in He as (x & -> & _). by eexists _, _.
    + left. apply list_elem_of_fmap in He as (x & -> & _). by eexists _, _.
    + left. apply list_elem_of_fmap in He as (x & -> & _). by eexists _, _.
    + left. apply list_elem_of_fmap in He as (x & -> & _). by eexists _, _.
    + right. destruct (async_responses data) as [rs|]; simpl in He;
        [|by apply elem_of_nil in He].
      by apply async_effects in He.
Qed.

(** A completion callback that a dispatch calls was pending. *)
Lemma notify_calls_registered data s fn err value :
  CallFn fn err value ∈ traceOf (notify (Some data) s) →
  ∃ r, r ∈ default [] (async_responses data)
       ∧ _asyncFns s !! id r = Some fn
       ∧ CallFn fn err value = asyncCall fn r.
Proof.
  intros [(n & _ & [?|[(g & _ & ?)|[_ ?]]])|[(event & arg & ?)
         |(r & Hr & [(g & Hg & He)|[_ ?]])]]%notify_effects; try done.
  assert (g = fn) as ->.
  { unfold asyncCall in He. by destruct (bool_decide _); injection He. }
  by exists r.
Qed.

(** A dispatch from an object whose correlator does not hold [done]
    never calls [done]. *)
Lemma unpending_never_called done s :
  (∀ k, _asyncFns s !! k ≠ Some done) →
  ∀ data err value, CallFn done err value ∉ traceOf (notify data s).
Proof.
  intros Hs [data|] err value Hin; [|by apply elem_of_nil in Hin].
  apply notify_calls_registered in Hin as (r & _ & Hfn & _).
  by apply Hs in Hfn.
Qed.

(** X7. [notify] calls only what the registries give: a subscription
    callback it invokes is the entry of [_notifyFns] under [ep +:+ path]
    of a notification of the batch and gets that notification's decoded
    payload; a completion callback it invokes is the entry of [_asyncFns]
    under the id of a response of the batch and gets that response's
    outcome; and a function of the runtime is only called for a key or an
    id of the batch that is not ordinary, so never when the batch is
    ordinary. *)
Theorem notify_calls_only_registered data s e :
  e ∈ traceOf (notify (Some data) s) →
  match e with
  | CallNotifyFn fn body =>
      ∃ n, n ∈ default [] (notifications data)
           ∧ _notifyFns s !! (ep n +:+ path n) = Some fn
           ∧ body = decodeBody (payload n) (ct n)
  | CallFn fn err value =>
      ∃ r, r ∈ default [] (async_responses data)
           ∧ _asyncFns s !! id r = Some fn
           ∧ CallFn fn err value = asyncCall fn r
  | CallInherited key (NotifyArguments body) =>
      ¬ ordinaryBatch s data
      ∧ ∃ n, n ∈ default [] (notifications data)
             ∧ ¬ ordinaryNotification n
             ∧ key = ep n +:+ path n
             ∧ body = decoded (decodeBody (payload n) (ct n))
  | CallInherited key (DoneArguments err value) =>
      ¬ ordinaryBatch s data
      ∧ ∃ r, r ∈ default [] (async_responses data)
             ∧ ¬ ordinaryResponse s r
             ∧ key = id r
             ∧ DoneArguments err value = asyncArguments r
  | Emit _ _ => True
  end.
Proof.
  destruct e as [event arg|fn body|fn err value|key [body|err value]]; [done|..].
  - apply notify_calls_subscribed.
  - apply notify_calls_registered.
  - intros [(n & Hn & [?|[(g & _ & ?)|[Ho He]]])|[(event & arg & ?)
           |(r & Hr & [(g & Hg & He)|[Ho He]])]]%notify_effects; try done.
    + injection He as -> ->. split.
      * intros [Hns _]. rewrite Forall_forall in Hns. by apply Ho, Hns.
      * by exists n.
    + unfold asyncCall in He. by destruct (bool_decide _).
    + unfold asyncArguments in He. by destruct (bool_decide _).
  - intros [(n & Hn & [?|[(g & _ & ?)|[Ho He]]])|[(event & arg & ?)
           |(r & Hr & [(g & Hg & He)|[Ho He]])]]%notify_effects; try done.
    + unfold asyncCall in He. by destruct (bool_decide _).
    + injection He as -> He. split.
      * intros [_ Hrs]. rewrite Forall_forall in Hrs. by apply Ho, Hrs.
      * by exists r.
Qed.

(** ** Registering a completion callback *)

Lemma fileCallback_eq a done s :
  fileCallback a done s
  = if assignable (_asyncFns s) a
    then (Normal tt, set_asyncFns (<[a := done]> (_asyncFns s)) s, [])
    else (Thrown, s, []).
Proof.
  unfold fileCallback. rewrite bind_eq; simpl. by destruct (assignable _ _).
Qed.

(** Under an ordinary id the assignment goes through, and so it does
    under "__proto__" and as long as the prototype is [Object.prototype]. *)
Lemma assignable_ordinary (m : gmap string fnId) a :
  ordinaryKey (m !! "__proto__") a ∨ a = "__proto__" ∨ m !! "__proto__" = None →
  assignable m a = true.
Proof.
  intros Ha. unfold assignable. destruct (m !! a); [done|].
  destruct (decide (a = "__proto__")); [done|].
  destruct (m !! "__proto__") as [f|] eqn:Hf; [|done].
  destruct Ha as [[_ Ho]|[?|?]]; [|done..]. simpl in Ho. by rewrite Ho.
Qed.

(** The three value operations run the same code on a response. *)
Lemma value_operation_eq op asyncID done s :
  op ∈ [getResourceValue; setResourceValue; executeResource] →
  op asyncID done s =
  match asyncID with
  | Some a =>
      if handleNotifications s && truthy asyncID
      then fileCallback a done s
      else (Normal tt, s, [CallFn done None (Some (VString a))])
  | None => (Normal tt, s, [CallFn done None None])
  end.
Proof.
  intros Hop. repeat (apply elem_of_cons in Hop as [->|Hop]);
    [| | |by apply elem_of_nil in Hop];
    unfold getResourceValue, setResourceValue, executeResource;
    rewrite bind_eq; simpl;
    (destruct asyncID as [a|]; [|done]);
    destruct (handleNotifications s && truthy (Some a)); try done;
    by destruct (fileCallback a done s) as [[c2 s2] t2].
Qed.

Lemma truthy_Some a : a ≠ "" → truthy (Some a) = true.
Proof.
  intros Ha. unfold truthy. destruct (String.eqb a "") eqn:E; [|done].
  by apply String.eqb_eq in E.
Qed.

Lemma value_operation_files op a done s :
  op ∈ [getResourceValue; setResourceValue; executeResource] →
  handleNotifications s = true →
  a ≠ "" →
  op (Some a) done s = fileCallback a done s.
Proof.
  intros Hop Hon Ha. rewrite (value_operation_eq op) by done.
  by rewrite Hon, truthy_Some.
Qed.






(** X2. Without a pending entry to make (handling off, or no async id, or
    an empty one) a value operation settles its caller at once with the
    async id and leaves the object as it is; [deleteResource] does so
    whatever the flag.  Nothing is filed: a response that arrives later
    for that id, when the id is ordinary and not pending, is dropped
    without an error, and no later dispatch settles the caller a second
    time. *)
Theorem value_operation_settles_at_once op asyncID done s :
  op ∈ [getResourceValue; setResourceValue; executeResource] →
  (handleNotifications s && truthy asyncID = false →
     op asyncID done s = (Normal tt, s, [CallFn done None (VString <$> asyncID)]))
  ∧ deleteResource asyncID done s
    = (Normal tt, s, [CallFn done None (VString <$> asyncID)])
  ∧ (∀ r, _asyncFns s !! id r = None →
      ordinaryResponse s r →
      (handleNotifications s && truthy asyncID = false →
         onAsyncResponse r (stateOf (op asyncID done s)) = (Normal tt, s, []))
      ∧ onAsyncResponse r (stateOf (deleteResource asyncID done s))
        = (Normal tt, s, []))
  ∧ ((∀ k, _asyncFns s !! k ≠ Some done) →
       ∀ data err value,
         (handleNotifications s && truthy asyncID = false →
            CallFn done err value
            ∉ traceOf (notify data (stateOf (op asyncID done s))))
         ∧ CallFn done err value
           ∉ traceOf (notify data (stateOf (deleteResource asyncID done s)))).
Proof.
  intros Hop.
  assert (Hnow : handleNotifications s && truthy asyncID = false →
     op asyncID done s = (Normal tt, s, [CallFn done None (VString <$> asyncID)])).
  { intros Hoff. rewrite (value_operation_eq op) by done.
    destruct asyncID as [a|]; [|done]. by rewrite Hoff. }
  split_and!; [done|done| |].
  - intros r Hr Ho. split.
    + intros Hoff. rewrite Hnow by done. unfold stateOf; simpl.
      by rewrite onAsyncResponse_eq, Hr.
    + unfold deleteResource, tell, stateOf; simpl.
      by rewrite onAsyncResponse_eq, Hr.
  - intros Hfresh data err value. split.
    + intros Hoff. rewrite Hnow by done. by apply unpending_never_called.
    + by apply unpending_never_called.
Qed.

(** X3. An async id that is filed twice keeps the later callback only: the
    caller of the first operation is never settled, neither when it files
    nor by any batch dispatched afterwards.  (The assignment goes through
    unless a function standing as prototype of [_asyncFns] forbids that
    name; then both operations throw and nothing is filed.) *)
Theorem async_id_reuse_drops_first_caller op1 op2 a done1 done2 s :
  op1 ∈ [getResourceValue; setResourceValue; executeResource] →
  op2 ∈ [getResourceValue; setResourceValue; executeResource] →
  handleNotifications s = true →
  a ≠ "" →
  done1 ≠ done2 →
  (∀ k, _asyncFns s !! k ≠ Some done1) →
  let s1 := stateOf (op1 (Some a) done1 s) in
  let s2 := stateOf (op2 (Some a) done2 s1) in
  traceOf (op1 (Some a) done1 s) = []
  ∧ traceOf (op2 (Some a) done2 s1) = []
  ∧ (returns (op1 (Some a) done1 s) = true →
       returns (op2 (Some a) done2 s1) = true
       ∧ _asyncFns s2 = <[a := done2]> (_asyncFns s))
  ∧ (ordinaryKey (_asyncFns s !! "__proto__") a ∨ a = "__proto__"
     ∨ _asyncFns s !! "__proto__" = None →
       returns (op1 (Some a) done1 s) = true)
  ∧ ∀ data err value, CallFn done1 err value ∉ traceOf (notify data s2).
Proof.
  intros Hop1 Hop2 Hon Ha Hne Hfresh s1 s2.
  pose proof (unpending_never_called done1) as Hnever.
  assert (H2 : ∀ k, <[a := done2]> (_asyncFns s) !! k ≠ Some done1).
  { intros k [[_ ?]|[_ Hk]]%lookup_insert_Some; [done|]. by apply Hfresh in Hk. }
  assert (E1 : op1 (Some a) done1 s
               = if assignable (_asyncFns s) a
                 then (Normal tt, set_asyncFns (<[a := done1]> (_asyncFns s)) s, [])
                 else (Thrown, s, [])).
  { by rewrite (value_operation_files op1), fileCallback_eq. }
  destruct (assignable (_asyncFns s) a) eqn:Hw.
  - assert (Hs1 : s1 = set_asyncFns (<[a := done1]> (_asyncFns s)) s).
    { subst s1. by rewrite E1. }
    assert (E2 : op2 (Some a) done2 s1
                 = (Normal tt, set_asyncFns (<[a := done2]> (_asyncFns s)) s, [])).
    { rewrite (value_operation_files op2), fileCallback_eq by (by rewrite ?Hs1).
      rewrite Hs1; simpl. unfold assignable at 1. rewrite lookup_insert_eq.
      by rewrite set_asyncFns_set_asyncFns, insert_insert_eq. }
    assert (Hs2 : s2 = set_asyncFns (<[a := done2]> (_asyncFns s)) s).
    { subst s2. by rewrite E2. }
    rewrite E1, E2, Hs2. split_and!; [done..|]. by apply Hnever.
  - assert (Hs1 : s1 = s) by (subst s1; by rewrite E1).
    assert (E2 : op2 (Some a) done2 s1 = (Thrown, s, [])).
    { rewrite Hs1, (value_operation_files op2), fileCallback_eq by done.
      by rewrite Hw. }
    assert (Hs2 : s2 = s) by (subst s2; by rewrite E2).
    rewrite E1, E2, Hs2. split_and!; [done..| |by apply Hnever].
    intros Ho. by rewrite assignable_ordinary in Hw.
Qed.

(** ** The subscription registry *)

Lemma deleteResourceSubscription_notifyFns d p asyncID done s :
  _notifyFns (stateOf (deleteResourceSubscription d p asyncID done s))
  = delete (d +:+ "/" +:+ normalizePath p) (_notifyFns s).
Proof.
  unfold deleteResourceSubscription. rewrite seq_state.
  unfold returns at 1, stateOf at 2 3; simpl. rewrite bind_eq; simpl.
  destruct asyncID as [a|]; [|done].
  destruct (handleNotifications s && truthy (Some a)); [|done].
  pose proof (fileCallback_notifyFns a done
    (set_notifyFns (delete (d +:+ "/" +:+ normalizePath p) (_notifyFns s)) s)) as Hf.
  by destruct (fileCallback a done _) as [[c2 s2] t2].
Qed.

(** X4. Subscribing again to the same device and resource (the paths may
    differ by the leading slash) replaces the callback: the new one is
    invoked for a notification under the key, the old one is never invoked
    again, by any dispatch from any object with that subscription map. *)
Theorem subscription_replaced d p p' f1 f2 a1 a2 done1 done2 s :
  normalizePath p = normalizePath p' →
  f1 ≠ f2 →
  (∀ k, _notifyFns s !! k ≠ Some f1) →
  let key := d +:+ "/" +:+ normalizePath p in
  let s1 := stateOf (addResourceSubscription d p (Some f1) a1 done1 s) in
  let s2 := stateOf (addResourceSubscription d p' (Some f2) a2 done2 s1) in
  _notifyFns s2 = <[key := f2]> (_notifyFns s)
  ∧ (∀ n, ep n +:+ path n = key →
       traceOf (onNotification n s2)
       = [CallNotifyFn f2 (decodeBody (payload n) (ct n));
          Emit EVENT_NOTIFICATION
            (NotificationArg (ep n) (path n) (decodeBody (payload n) (ct n)))])
  ∧ (∀ s' data body, _notifyFns s' = _notifyFns s2 →
       CallNotifyFn f1 body ∉ traceOf (notify data s')).
Proof.
  intros Hp Hne Hfresh key s1 s2.
  assert (Hs2 : _notifyFns s2 = <[key := f2]> (_notifyFns s)).
  { subst s2 s1 key. rewrite !addResourceSubscription_notifyFns, <-Hp.
    apply insert_insert_eq. }
  split_and!; [done| |].
  - intros n Hn.
    rewrite (onNotification_registered n s2 f2)
      by (by rewrite Hs2, Hn, lookup_insert_eq).
    unfold traceOf, notificationTrace; simpl.
    by rewrite Hs2, Hn, lookup_insert_eq.
  - intros s' data body Hs'. apply unsubscribed_never_invoked.
    intros k. rewrite Hs', Hs2. intros [[_ ?]|[_ Hk]]%lookup_insert_Some; [done|].
    by apply Hfresh in Hk.
Qed.

(** X5. [deleteResourceSubscription] removes what [addResourceSubscription]
    stored for the same device and resource (the paths may differ by the
    leading slash): a notification under the key then only emits the
    event, the callback is never invoked again, and if the key was free
    before the subscription the map is back to what it was.  Deleting a
    subscription that is not there changes nothing in the map. *)
Theorem subscription_deleted d p p' f a1 a2 done1 done2 s :
  normalizePath p = normalizePath p' →
  let key := d +:+ "/" +:+ normalizePath p in
  let s1 := stateOf (addResourceSubscription d p (Some f) a1 done1 s) in
  let s2 := stateOf (deleteResourceSubscription d p' a2 done2 s1) in
  _notifyFns s2 = delete key (_notifyFns s)
  ∧ (_notifyFns s !! key = None → _notifyFns s2 = _notifyFns s)
  ∧ (∀ n, ep n +:+ path n = key →
       traceOf (onNotification n s2)
       = [Emit EVENT_NOTIFICATION
            (NotificationArg (ep n) (path n) (decodeBody (payload n) (ct n)))])
  ∧ ((∀ k, _notifyFns s !! k ≠ Some f) →
       ∀ s' data body, _notifyFns s' = _notifyFns s2 →
         CallNotifyFn f body ∉ traceOf (notify data s'))
  ∧ (_notifyFns s !! key = None →
       _notifyFns (stateOf (deleteResourceSubscription d p' a2 done2 s))
       = _notifyFns s).
Proof.
  intros Hp key s1 s2.
  assert (Hs2 : _notifyFns s2 = delete key (_notifyFns s)).
  { subst s2 s1 key. rewrite deleteResourceSubscription_notifyFns,
      addResourceSubscription_notifyFns, <-Hp. apply delete_insert_eq. }
  split_and!; [done|..].
  - intros Hfree. rewrite Hs2. by apply delete_id.
  - intros n Hn. rewrite onNotification_ordinary.
    + unfold traceOf, notificationTrace; simpl.
      by rewrite Hs2, Hn, lookup_delete_eq.
    + unfold ordinaryNotification. rewrite Hn. apply subscription_key_ordinary.
  - intros Hfresh s' data body Hs'. apply unsubscribed_never_invoked.
    intros k. rewrite Hs', Hs2. intros [_ Hk]%lookup_delete_Some.
    by apply Hfresh in Hk.
  - intros Hfree. rewrite deleteResourceSubscription_notifyFns.
    subst key. rewrite <-Hp. by apply delete_id.
Qed.




End Correlation.

(** * Further properties of a dispatch *)

Section Dispatch.
Context `{Collaborators}.









(** X9. An absent field and an empty array are the same to [notify], and a
    batch without entries does nothing, like a null batch. *)
Theorem notify_absent_is_empty data s :
  notify (Some (allPresent data)) s = notify (Some data) s
  ∧ (eventEntries data = 0%nat → default [] (async_responses data) = [] →
       notify (Some data) s = notify None s).
Proof.
  split.
  - rewrite !notify_eq. unfold registrationTrace, reregistrationTrace,
      deregistrationTrace, expiredTrace; simpl.
    by destruct (notifications data), (async_responses data).
  - unfold eventEntries. intros Hzero Hasync. rewrite notify_eq.
    unfold registrationTrace, reregistrationTrace,
      deregistrationTrace, expiredTrace.
    destruct (notifications data) as [[|n ns]|]; simpl in *; try lia;
      (destruct (default [] (registrations data)); [|simpl in Hzero; lia]);
      (destruct (default [] (reg_updates data)); [|simpl in Hzero; lia]);
      (destruct (default [] (de_registrations data)); [|simpl in Hzero; lia]);
      (destruct (default [] (registrations_expired data)); [|simpl in Hzero; lia]);
      (destruct (async_responses data) as [rs|]; simpl in *; [|done]);
      by rewrite Hasync.
Qed.









End Dispatch.

Section ResourceProperties.
Context `{Models}.

Lemma find_resource_none (path : string) (data : list rawResource) :
  List.find (λ resource, bool_decide (normalizePath (uri resource) = path)) data = None
  ↔ ∀ r, r ∈ data → normalizePath (uri r) ≠ path.
Proof.
  induction data as [|x data IH]; simpl.
  - split; [|done]. by intros _ r ?%elem_of_nil.
  - destruct (decide (normalizePath (uri x) = path)) as [Hx|Hx].
    + rewrite bool_decide_eq_true_2 by done. split; [done|].
      intros Hall. exfalso. apply (Hall x); [by left|done].
    + rewrite bool_decide_eq_false_2 by done. rewrite IH. split.
      * intros Hall r [->|Hr]%elem_of_cons; [done|by apply Hall].
      * intros Hall r Hr. apply Hall. by right.
Qed.

Lemma find_resource_first (path : string) (pre : list rawResource) r post :
  normalizePath (uri r) = path →
  (∀ r', r' ∈ pre → normalizePath (uri r') ≠ path) →
  List.find (λ resource, bool_decide (normalizePath (uri resource) = path))
    (pre ++ r :: post) = Some r.
Proof.
  intros Hr. induction pre as [|x pre IH]; intros Hpre; simpl.
  - by rewrite bool_decide_eq_true_2.
  - rewrite bool_decide_eq_false_2 by (apply Hpre; by left).
    apply IH. intros r' Hr'. apply Hpre. by right.
Qed.

(** X12. [getResource] hands the caller the first resource of the device
    whose uri equals the requested path, both taken without their leading
    slash, and the error "Resource not found" exactly when the device has
    no such resource.  What it finds is one of the resources
    [listResources] returns, and a leading slash on the requested path
    makes no difference. *)
Theorem getResource_finds_first deviceId resourcePath data :
  (getResource deviceId resourcePath data = (Some resourceNotFound, None)
   ↔ ∀ r, r ∈ data → normalizePath (uri r) ≠ normalizePath resourcePath)
  ∧ (∀ pre r post,
       data = pre ++ r :: post →
       normalizePath (uri r) = normalizePath resourcePath →
       (∀ r', r' ∈ pre → normalizePath (uri r') ≠ normalizePath resourcePath) →
       getResource deviceId resourcePath data
       = (None, Some (ResourceAdapter_map r deviceId)))
  ∧ (∀ err x, getResource deviceId resourcePath data = (err, Some x) →
       err = None ∧ x ∈ listResources deviceId data)
  ∧ (normalizePath resourcePath = resourcePath →
       getResource deviceId ("/" +:+ resourcePath) data
       = getResource deviceId resourcePath data).
Proof.
  unfold getResource. split_and!.
  - rewrite <-find_resource_none.
    destruct (List.find _ data); split; intros; done.
  - intros pre r post -> Hr Hpre. by rewrite find_resource_first.
  - intros err x.
    destruct (List.find _ data) as [found|] eqn:Hfound; [|done].
    intros [= <- <-]. split; [done|].
    apply List.find_some in Hfound as [Hin _].
    apply list_elem_of_In in Hin. unfold listResources.
    by apply (list_elem_of_fmap_2 (λ resource, ResourceAdapter_map resource deviceId)).
  - intros Hp. change (normalizePath ("/" +:+ resourcePath)) with resourcePath.
    by rewrite Hp.
Qed.

(** X13. [listMetrics] never resolves to an empty list: when the response
    holds no metrics (the array is missing or empty) the caller gets
    undefined, otherwise one mapped metric per raw metric, in order. *)
Theorem listMetrics_never_empty data :
  (listMetrics data = None ↔ default [] data = [])
  ∧ (∀ l, listMetrics data = Some l →
       l ≠ [] ∧ l = MetricAdapter_map <$> default [] data
       ∧ length l = length (default [] data)).
Proof.
  destruct data as [[|metric metrics]|]; simpl; split; try done.
  intros l [= <-]. split_and!; [done|done|]. simpl. by rewrite length_fmap.
Qed.

End ResourceProperties.


(** * Further properties of the pull loop and the webhook registry *)

Section Loop.
Context `{Collaborators}.

(** Lookups in a table of requests built by inserts and deletes at
    numbers that differ by a constant. *)
Ltac request_lookup :=
  repeat first
    [ rewrite lookup_insert_eq
    | rewrite lookup_delete_eq
    | rewrite lookup_insert_ne by lia
    | rewrite lookup_delete_ne by lia ];
  try done.



Lemma run_timers m w : timers (run m w) = timers w.
Proof. unfold run. by destruct (m (api w)) as [[c s] t]. Qed.

Lemma run_inflight m w : inflight (run m w) = inflight w.
Proof. unfold run. by destruct (m (api w)) as [[c s] t]. Qed.

Lemma run_nextTimer m w : nextTimer (run m w) = nextTimer w.
Proof. unfold run. by destruct (m (api w)) as [[c s] t]. Qed.





(** X16. [updateWebhook] first deletes the pull channel and only when that
    request has completed, whatever its result, puts the webhook with the
    url and headers given; the caller is settled with the result of the
    put (its error, or null).  The object is not touched: a pull loop that
    is running keeps its handling flag, its poll request and its timers. *)
Theorem updateWebhook_effect url headers done w e1 e2 :
  let r := nextRequest w in
  log (updateWebhook url headers done w) = log w ++ [Request r v2NotificationPullDelete]
  ∧ ∃ w2,
      execs [CallUpdateWebhook url headers done;
             PullDeleteResponds r e1;
             CallbackPutResponds (S r) e2] w = Some w2
      ∧ log w2 = log w ++ [Request r v2NotificationPullDelete;
                          Request (S r) (v2NotificationCallbackPut url headers);
                          Effect (CallFn done e2 None)]
      ∧ settles e2 None = match e2 with
                          | Some e => Rejected e
                          | None => Resolved None
                          end
      ∧ api w2 = api w
      ∧ timers w2 = timers w.
Proof.
  intros r. split; [done|]. subst r.
  simpl. rewrite lookup_insert_eq. simpl. rewrite lookup_insert_eq. simpl.
  eexists. split; [done|]. unfold onUpdateWebhookPut.
  destruct e2 as [e|]; simpl; by rewrite <-!app_assoc.
Qed.

(** X17. Starting twice starts two loops: after both starts have
    completed, two poll requests are in flight at once, [_pollRequest]
    holds the later one, and a stop that follows aborts that one only; the
    earlier request stays in flight (its answer will be ignored). *)
Theorem start_twice_two_loops o1 o2 d1 d2 d3 e1 e2 e3 w :
  let r := nextRequest w in
  ∃ w2 w3,
    execs [CallStartNotifications o1 d1; CallbackDeleteResponds r e1;
           CallStartNotifications o2 d2; CallbackDeleteResponds (S (S r)) e2] w
    = Some w2
    ∧ inflight w2 !! S r = Some (PollResponse o1)
    ∧ inflight w2 !! S (S (S r)) = Some (PollResponse o2)
    ∧ _pollRequest (api w2) = Some (S (S (S r)))
    ∧ execs [CallStopNotifications d3; PullDeleteResponds (S (S (S (S r)))) e3] w2
      = Some w3
    ∧ inflight w3 !! S r = Some (PollResponse o1)
    ∧ inflight w3 !! S (S (S r)) = None
    ∧ handleNotifications (api w3) = false.
Proof.
  intros r. subst r. destruct w as [a i t nr nt l]. simpl.
  rewrite !lookup_insert_eq. simpl.
  eexists _, _. split; [reflexivity|]. simpl.
  split; [request_lookup|]. split; [request_lookup|]. split; [done|].
  rewrite lookup_insert_eq. simpl. split; [reflexivity|]. simpl.
  split; [request_lookup|]. split; [request_lookup|]. done.
Qed.

End Loop.

(** * Invariants of the event loop *)

Section Invariants.
Context `{Collaborators}.

Lemma size_insert_le {A} (m : gmap nat A) i x : (size (<[i:=x]> m) ≤ S (size m))%nat.
Proof. rewrite map_size_insert. destruct (m !! i); simpl; lia. Qed.

Lemma size_delete_le {A} (m : gmap nat A) i : (size (delete i m) ≤ size m)%nat.
Proof. rewrite map_size_delete. destruct (m !! i); simpl; lia. Qed.

Lemma size_delete_Some {A} (m : gmap nat A) i x :
  m !! i = Some x → S (size (delete i m)) = size m.
Proof.
  intros Hi. rewrite <-(insert_id m i x) at 2 by done.
  by rewrite <-insert_delete_eq, map_size_insert_None by apply lookup_delete_eq.
Qed.

Lemma polls_insert_other m r k :
  ¬ isPoll k → (size (polls (<[r:=k]> m)) ≤ size (polls m))%nat.
Proof.
  intros Hk. unfold polls. rewrite map_filter_insert_False by done.
  rewrite map_filter_delete. apply size_delete_le.
Qed.

Lemma polls_insert_poll m r k :
  (size (polls (<[r:=k]> m)) ≤ S (size (polls m)))%nat.
Proof.
  destruct (isPoll k) eqn:Hk.
  - unfold polls. rewrite map_filter_insert_True by (simpl; by rewrite Hk).
    apply size_insert_le.
  - pose proof (polls_insert_other m r k) as Hle. rewrite Hk in Hle.
    specialize (Hle (λ x, x)). lia.
Qed.

Lemma polls_delete m r : (size (polls (delete r m)) ≤ size (polls m))%nat.
Proof. unfold polls. rewrite map_filter_delete. apply size_delete_le. Qed.

Lemma polls_delete_poll m r options :
  m !! r = Some (PollResponse options) →
  S (size (polls (delete r m))) = size (polls m).
Proof.
  intros Hr. unfold polls. rewrite map_filter_delete.
  apply (size_delete_Some _ _ (PollResponse options)).
  by apply map_lookup_filter_Some.
Qed.

Lemma startPending_insert m r k :
  (∀ options done, k ≠ DeleteWebhookResponse (StartContinuation options done)) →
  ¬ startPending m → ¬ startPending (<[r:=k]> m).
Proof.
  intros Hk Hm (r' & options & done & Hr'). apply Hm.
  apply lookup_insert_Some in Hr' as [[_ Heq]|[_ Hr']]; [by apply Hk in Heq|].
  by exists r', options, done.
Qed.

Lemma startPending_delete m r : ¬ startPending m → ¬ startPending (delete r m).
Proof.
  intros Hm (r' & options & done & Hr'). apply Hm.
  apply lookup_delete_Some in Hr' as [_ Hr']. by exists r', options, done.
Qed.

(** One turn of the event loop that is not a call to start, in a world
    where no start is under way. *)
Lemma exec_keeps_loops ev w w' :
  ¬ isStartCall ev →
  ¬ startPending (inflight w) →
  exec ev w = Some w' →
  ¬ startPending (inflight w') ∧ (loops w' ≤ loops w)%nat.
Proof.
  intros Hev Hw Hexec. unfold loops.
  destruct ev as [options done|done|done|url headers done|done|data
                 |r err data|r err|r err data|r err|r err|t]; simpl in Hexec.
  - by destruct Hev.
  - injection Hexec as <-. simpl. split.
    + by apply startPending_insert.
    + pose proof (polls_insert_other (inflight w) (nextRequest w) (StopResponse done)).
      simpl in *. lia.
  - injection Hexec as <-. simpl. split.
    + by apply startPending_insert.
    + pose proof (polls_insert_other (inflight w) (nextRequest w)
                    (GetWebhookResponse done)).
      simpl in *. lia.
  - injection Hexec as <-. simpl. split.
    + by apply startPending_insert.
    + pose proof (polls_insert_other (inflight w) (nextRequest w)
                    (UpdateWebhookPullDeleted url headers done)).
      simpl in *. lia.
  - injection Hexec as <-. simpl. split.
    + by apply startPending_insert.
    + pose proof (polls_insert_other (inflight w) (nextRequest w)
                    (DeleteWebhookResponse (UserFn done))).
      simpl in *. lia.
  - injection Hexec as <-. by rewrite run_inflight, run_timers.
  - destruct (inflight w !! r) as [[options| | | | |]|] eqn:Hr;
      try discriminate Hexec.
    injection Hexec as <-.
    pose proof (polls_delete_poll _ _ _ Hr) as Hsize.
    unfold onPollResponse; simpl.
    destruct (handleNotifications (api w)); simpl.
    + assert (Hrun : ∀ w1, inflight w1 = delete r (inflight w) →
                (size (timers w1) ≤ S (size (timers w)))%nat →
                ¬ startPending (inflight w1)
                ∧ (size (polls (inflight w1)) + size (timers w1)
                   ≤ size (polls (inflight w)) + size (timers w))%nat).
      { intros w1 -> Ht. split; [by apply startPending_delete|lia]. }
      assert (Hrest : ∀ w2, inflight w2 = delete r (inflight w) →
                timers w2 = timers w →
                nextTimer w2 = nextTimer w →
                ¬ startPending
                    (inflight match err with
                              | Some _ => set_api (set_handleNotifications false) w2
                              | None => setTimeout options w2
                              end)
                ∧ (size (polls (inflight match err with
                              | Some _ => set_api (set_handleNotifications false) w2
                              | None => setTimeout options w2
                              end))
                   + size (timers match err with
                              | Some _ => set_api (set_handleNotifications false) w2
                              | None => setTimeout options w2
                              end)
                   ≤ size (polls (inflight w)) + size (timers w))%nat).
      { intros w2 Hi Ht Hn. apply Hrun; destruct err; simpl; rewrite ?Hi, ?Ht; try done.
        - lia.
        - apply size_insert_le. }
      destruct (returns (notify data (api w))); simpl;
        [|apply Hrun; simpl; rewrite ?run_inflight, ?run_timers; simpl;
          [done|lia]].
      destruct (requestCallback options) as [cb|].
      * destruct data as [d|].
        -- destruct (async_responses d) as [rs|].
           ++ apply Hrest; simpl; by rewrite ?run_inflight, ?run_timers, ?run_nextTimer.
           ++ apply Hrest; simpl; by rewrite ?run_inflight, ?run_timers, ?run_nextTimer.
        -- apply Hrun; simpl; rewrite ?run_inflight, ?run_timers; [done|lia].
      * apply Hrest; simpl; by rewrite ?run_inflight, ?run_timers, ?run_nextTimer.
    + split; [by apply startPending_delete|lia].
  - destruct (inflight w !! r) as [[|done| |url headers done| |]|] eqn:Hr;
      try discriminate Hexec; injection Hexec as <-.
    + unfold onStopResponse; simpl.
      destruct (_pollRequest (api w)) as [p|]; simpl.
      * split; [by do 2 apply startPending_delete|].
        pose proof (polls_delete (delete r (inflight w)) p).
        pose proof (polls_delete (inflight w) r). lia.
      * split; [by apply startPending_delete|].
        pose proof (polls_delete (inflight w) r). lia.
    + simpl. split.
      * apply startPending_insert; [done|]. by apply startPending_delete.
      * pose proof (polls_insert_other (delete r (inflight w)) (nextRequest w)
                      (UpdateWebhookPut done)).
        pose proof (polls_delete (inflight w) r). simpl in *. lia.
  - destruct (inflight w !! r) as [[| |done| | |]|] eqn:Hr;
      try discriminate Hexec; injection Hexec as <-.
    unfold onGetWebhookResponse.
    assert (Hcall : ∀ e v,
      ¬ startPending (inflight (callFn done e v (completed r w)))
      ∧ (size (polls (inflight (callFn done e v (completed r w))))
         + size (timers (callFn done e v (completed r w)))
         ≤ size (polls (inflight w)) + size (timers w))%nat).
    { intros e v. simpl. split; [by apply startPending_delete|].
      pose proof (polls_delete (inflight w) r). lia. }
    destruct err as [e|]; [destruct (bool_decide _)|]; apply Hcall.
  - destruct (inflight w !! r) as [[| | | |done|]|] eqn:Hr;
      try discriminate Hexec; injection Hexec as <-.
    unfold onUpdateWebhookPut.
    destruct err as [e|]; simpl;
      (split; [by apply startPending_delete|]);
      pose proof (polls_delete (inflight w) r); lia.
  - destruct (inflight w !! r) as [[| | | | |[fn|options done]]|] eqn:Hr;
      try discriminate Hexec; injection Hexec as <-.
    + simpl. split; [by apply startPending_delete|].
      pose proof (polls_delete (inflight w) r). lia.
    + exfalso. apply Hw. by exists r, options, done.
  - destruct (timers w !! t) as [options|] eqn:Ht; [|done].
    injection Hexec as <-. simpl. split.
    + by apply startPending_insert.
    + pose proof (polls_insert_poll (inflight w) (nextRequest w) (PollResponse options)).
      pose proof (size_delete_Some _ _ _ Ht). lia.
Qed.

(** X18. Without a new call to [startNotifications] (and with no start
    under way) the number of poll requests in flight plus polls scheduled
    never grows, whatever else is called and in whatever order answers and
    timers come: a loop has at most one fetch outstanding, the next one is
    only sent once the previous answer has been handled. *)
Theorem loops_never_grow evs w w' :
  Forall (λ ev, ¬ isStartCall ev) evs →
  ¬ startPending (inflight w) →
  execs evs w = Some w' →
  (loops w' ≤ loops w)%nat
  ∧ ((loops w ≤ 1)%nat → (size (polls (inflight w')) ≤ 1)%nat).
Proof.
  intros Hevs. revert w. induction Hevs as [|ev evs Hev _ IH]; intros w Hw Hexec.
  - injection Hexec as <-. unfold loops. split; lia.
  - simpl in Hexec. destruct (exec ev w) as [w1|] eqn:Hev1; [|done].
    destruct (exec_keeps_loops ev w w1) as [Hw1 Hle]; [done..|].
    destruct (IH w1 Hw1 Hexec) as [Hle' _]. split; [lia|].
    intros Hone. unfold loops in *. lia.
Qed.

(** One turn that is neither a start nor a dispatch asked by the
    application, with handling off. *)
Lemma exec_keeps_off ev w w' :
  ¬ isStartCall ev →
  ¬ isNotifyCall ev →
  ¬ startPending (inflight w) →
  handleNotifications (api w) = false →
  exec ev w = Some w' →
  handleNotifications (api w') = false
  ∧ _asyncFns (api w') = _asyncFns (api w)
  ∧ _notifyFns (api w') = _notifyFns (api w)
  ∧ ∃ l, log w' = log w ++ l ∧ Forall quiet l.
Proof.
  intros Hev Hn Hw Hoff Hexec.
  destruct ev as [options done|done|done|url headers done|done|data
                 |r err data|r err|r err data|r err|r err|t]; simpl in Hexec.
  - by destruct Hev.
  - injection Hexec as <-. simpl. split_and!; [done..|]. eexists.
    split; [done|]. by repeat constructor.
  - injection Hexec as <-. simpl. split_and!; [done..|]. eexists.
    split; [done|]. by repeat constructor.
  - injection Hexec as <-. simpl. split_and!; [done..|]. eexists.
    split; [done|]. by repeat constructor.
  - injection Hexec as <-. simpl. split_and!; [done..|]. eexists.
    split; [done|]. by repeat constructor.
  - by destruct Hn.
  - destruct (inflight w !! r) as [[options| | | | |]|] eqn:Hr;
      try discriminate Hexec.
    injection Hexec as <-. unfold onPollResponse; simpl. rewrite Hoff; simpl.
    split_and!; [done..|]. exists []. by rewrite app_nil_r.
  - destruct (inflight w !! r) as [[|done| |url headers done| |]|] eqn:Hr;
      try discriminate Hexec; injection Hexec as <-.
    + unfold onStopResponse; simpl.
      destruct (_pollRequest (api w)) as [p|]; simpl;
        (split_and!; [done..|]); eexists; rewrite <-?app_assoc;
        (split; [done|]); by repeat constructor.
    + simpl. split_and!; [done..|]. eexists. split; [done|]. by repeat constructor.
  - destruct (inflight w !! r) as [[| |done| | |]|] eqn:Hr;
      try discriminate Hexec; injection Hexec as <-.
    unfold onGetWebhookResponse.
    destruct err as [e|]; [destruct (bool_decide _)|]; simpl;
      (split_and!; [done..|]); eexists; (split; [done|]); by repeat constructor.
  - destruct (inflight w !! r) as [[| | | |done|]|] eqn:Hr;
      try discriminate Hexec; injection Hexec as <-.
    unfold onUpdateWebhookPut.
    destruct err as [e|]; simpl;
      (split_and!; [done..|]); eexists; (split; [done|]); by repeat constructor.
  - destruct (inflight w !! r) as [[| | | | |[fn|options done]]|] eqn:Hr;
      try discriminate Hexec; injection Hexec as <-.
    + simpl. split_and!; [done..|]. eexists. split; [done|]. by repeat constructor.
    + exfalso. apply Hw. by exists r, options, done.
  - destruct (timers w !! t) as [options|] eqn:Ht; [|done].
    injection Hexec as <-. simpl. split_and!; [done..|]. eexists.
    split; [done|]. by repeat constructor.
Qed.

(** With handling off no turn of the event loop schedules a poll. *)
Lemma exec_off_timers ev w w' :
  handleNotifications (api w) = false →
  exec ev w = Some w' →
  timers w' ⊆ timers w.
Proof.
  intros Hoff Hexec.
  destruct ev as [options done|done|done|url headers done|done|data
                 |r err data|r err|r err data|r err|r err|t]; simpl in Hexec;
    try (injection Hexec as <-; simpl; rewrite ?run_timers; reflexivity).
  - destruct (inflight w !! r) as [[options| | | | |]|]; try discriminate Hexec.
    injection Hexec as <-. unfold onPollResponse; simpl. by rewrite Hoff.
  - destruct (inflight w !! r) as [[|done| |url headers done| |]|];
      try discriminate Hexec; injection Hexec as <-.
    + unfold onStopResponse; simpl. by destruct (_pollRequest (api w)).
    + reflexivity.
  - destruct (inflight w !! r) as [[| |done| | |]|];
      try discriminate Hexec; injection Hexec as <-.
    unfold onGetWebhookResponse.
    destruct err as [e|]; [destruct (bool_decide _)|]; reflexivity.
  - destruct (inflight w !! r) as [[| | | |done|]|];
      try discriminate Hexec; injection Hexec as <-.
    unfold onUpdateWebhookPut. destruct err; reflexivity.
  - destruct (inflight w !! r) as [[| | | | |[fn|options done]]|];
      try discriminate Hexec; injection Hexec as <-; reflexivity.
  - destruct (timers w !! t) as [options|]; [|done].
    injection Hexec as <-. simpl. apply delete_subseteq.
Qed.

(** From a world where handling is off and no start is under way,
    whatever else is called (the application not calling [notify] itself)
    and whatever answers and timers arrive: handling stays off, nothing
    is dispatched, no poll is scheduled, the loops do not grow and both
    registries stay as they are. *)
Lemma execs_keeps_off evs w w' :
  Forall (λ ev, ¬ isStartCall ev ∧ ¬ isNotifyCall ev) evs →
  ¬ startPending (inflight w) →
  handleNotifications (api w) = false →
  execs evs w = Some w' →
  handleNotifications (api w') = false
  ∧ _asyncFns (api w') = _asyncFns (api w)
  ∧ _notifyFns (api w') = _notifyFns (api w)
  ∧ (∃ l, log w' = log w ++ l ∧ Forall quiet l)
  ∧ timers w' ⊆ timers w
  ∧ (loops w' ≤ loops w)%nat
  ∧ ¬ startPending (inflight w').
Proof.
  intros Hevs. revert w.
  induction Hevs as [|ev evs [Hev Hn] _ IH]; intros w Hw Hoff Hexec.
  - injection Hexec as <-. split_and!; [done..| |done|lia|done].
    exists []. by rewrite app_nil_r.
  - simpl in Hexec. destruct (exec ev w) as [w1|] eqn:Hev1; [|done].
    destruct (exec_keeps_loops ev w w1) as [Hw1 Hle1]; [done..|].
    destruct (exec_keeps_off ev w w1) as (Hoff1 & Ha1 & Hn1 & l1 & Hl1 & Hq1);
      [done..|].
    pose proof (exec_off_timers ev w w1 Hoff Hev1) as Ht1.
    destruct (IH w1 Hw1 Hoff1 Hexec)
      as (Hoff' & Ha' & Hn' & (l' & Hl' & Hq') & Ht' & Hle' & Hw').
    split_and!; [done|congruence|congruence| |by etrans|lia|done].
    exists (l1 ++ l'). split; [by rewrite Hl', Hl1, app_assoc|].
    by apply Forall_app.
Qed.

(** X19. Handling is only ever switched on by [startNotifications]: from
    a world where it is off and no start is under way, whatever else is
    called (the application not calling [notify] itself) and whatever
    answers and timers arrive, it stays off, nothing is dispatched (no
    event emitted, no subscription callback invoked) and both maps stay as
    they are. *)
Theorem handling_stays_off evs w w' :
  Forall (λ ev, ¬ isStartCall ev ∧ ¬ isNotifyCall ev) evs →
  ¬ startPending (inflight w) →
  handleNotifications (api w) = false →
  execs evs w = Some w' →
  handleNotifications (api w') = false
  ∧ _asyncFns (api w') = _asyncFns (api w)
  ∧ _notifyFns (api w') = _notifyFns (api w)
  ∧ ∃ l, log w' = log w ++ l ∧ Forall quiet l.
Proof.
  intros Hevs Hw Hoff Hexec.
  destruct (execs_keeps_off evs w w' Hevs Hw Hoff Hexec)
    as (? & ? & ? & ? & _).
  done.
Qed.

(** ** Stopping the pull loop *)

(** With handling off, the answer to a poll request is ignored: nothing
    is dispatched and nothing is scheduled. *)
Lemma poll_response_ignored options r err data w :
  inflight w !! r = Some (PollResponse options) →
  handleNotifications (api w) = false →
  exec (PullGetResponds r err data) w = Some (completed r w).
Proof.
  intros Hr Hoff. unfold exec. rewrite Hr. unfold onPollResponse; simpl.
  by rewrite Hoff.
Qed.

(** C6 (amended). [stopNotifications] sends one delete of the pull
    channel and nothing else.  When that request completes, whenever that
    is and with or without error, the poll request held in [_pollRequest]
    at that moment is aborted (its callback will not run), [_pollRequest]
    is cleared, handling is turned off and the caller is resolved.
    Timers are not touched: an iteration that was already scheduled still
    fires and sends one more fetch request, whose answer is ignored.
    From the completion on, as long as [startNotifications] is not called
    again, no earlier start is still under way and the application does
    not call [notify] itself, handling stays off: every poll answer is
    ignored, nothing is dispatched, no further poll is scheduled and the
    loops do not grow.  A second stop right after the first sends the
    delete again, resolves its caller again and leaves the object as the
    first stop left it. *)
Theorem stopNotifications_effect done w :
  let r := nextRequest w in
  let w1 := stopNotifications done w in
  log w1 = log w ++ [Request r v2NotificationPullDelete]
  ∧ api w1 = api w ∧ timers w1 = timers w
  ∧ inflight w1 = <[r := StopResponse done]> (inflight w)
  ∧ ∀ w' r' err,
      inflight w' !! r' = Some (StopResponse done) →
      ∃ w2,
        exec (PullDeleteResponds r' err) w' = Some w2
        ∧ log w2 = log w'
                   ++ match _pollRequest (api w') with
                      | Some p => [Abort p]
                      | None => []
                      end
                   ++ [Effect (CallFn done None None)]
        ∧ api w2 = set_handleNotifications false (set_pollRequest None (api w'))
        ∧ inflight w2 = match _pollRequest (api w') with
                        | Some p => delete p (delete r' (inflight w'))
                        | None => delete r' (inflight w')
                        end
        ∧ timers w2 = timers w'
        ∧ nextRequest w2 = nextRequest w'
        ∧ (∀ t options, timers w' !! t = Some options →
             ∃ w3, exec (TimerFires t) w2 = Some w3
                   ∧ log w3 = log w2 ++ [Request (nextRequest w') v2NotificationPullGet]
                   ∧ handleNotifications (api w3) = false
                   ∧ ∀ err' data,
                       ∃ w4, exec (PullGetResponds (nextRequest w') err' data) w3
                             = Some w4
                             ∧ log w4 = log w3 ∧ timers w4 = timers w3
                             ∧ api w4 = api w3)
        ∧ (¬ startPending (inflight w') →
           ∀ evs w3,
             Forall (λ ev, ¬ isStartCall ev ∧ ¬ isNotifyCall ev) evs →
             execs evs w2 = Some w3 →
             handleNotifications (api w3) = false
             ∧ (∃ l, log w3 = log w2 ++ l ∧ Forall quiet l)
             ∧ timers w3 ⊆ timers w2
             ∧ (loops w3 ≤ loops w2)%nat
             ∧ (∀ p options err' data,
                  inflight w3 !! p = Some (PollResponse options) →
                  exec (PullGetResponds p err' data) w3 = Some (completed p w3)))
        ∧ (∀ done' err',
             ∃ w3, execs [CallStopNotifications done';
                          PullDeleteResponds (nextRequest w') err'] w2 = Some w3
                   ∧ log w3 = log w2 ++ [Request (nextRequest w') v2NotificationPullDelete;
                                        Effect (CallFn done' None None)]
                   ∧ api w3 = api w2).
Proof.
  intros r w1. split_and!; [done..|].
  intros w' r' err Hr'. unfold exec. rewrite Hr'.
  eexists. split; [done|].
  split_and!.
  - unfold onStopResponse; simpl. destruct (_pollRequest (api w')); simpl;
      by rewrite <-?app_assoc.
  - unfold onStopResponse; simpl.
    destruct (_pollRequest (api w')) eqn:Hp; simpl; [done|].
    unfold set_handleNotifications, set_pollRequest; simpl. by rewrite Hp.
  - unfold onStopResponse; simpl. by destruct (_pollRequest (api w')).
  - unfold onStopResponse; simpl. by destruct (_pollRequest (api w')).
  - unfold onStopResponse; simpl. by destruct (_pollRequest (api w')).
  - intros t options Ht. unfold onStopResponse; simpl.
    destruct (_pollRequest (api w')) as [p|]; simpl; rewrite Ht;
      (eexists; split; [done|]; split; [done|]; split; [done|]);
      intros err' data; (eexists; split;
        [apply (poll_response_ignored options); [apply lookup_insert_eq | done]
        |done]).
  - intros Hstart evs w3 Hevs Hexec.
    assert (Hoff : handleNotifications
                     (api (onStopResponse done err (completed r' w'))) = false).
    { unfold onStopResponse; simpl. by destruct (_pollRequest (api w')). }
    assert (Hnone : ¬ startPending
                        (inflight (onStopResponse done err (completed r' w')))).
    { unfold onStopResponse; simpl. destruct (_pollRequest (api w')); simpl;
        repeat apply startPending_delete; done. }
    destruct (execs_keeps_off evs _ w3 Hevs Hnone Hoff Hexec)
      as (Hoff3 & _ & _ & Hlog & Htimers & Hloops & _).
    split_and!; [done..|].
    intros p options err' data Hp. by apply (poll_response_ignored options).
  - intros done' err'. unfold onStopResponse.
    destruct w' as [[pr af nf hn] infl tm nr nt lg]; simpl.
    destruct pr as [p|]; simpl; rewrite lookup_insert_eq; simpl;
      (eexists; split; [done|]); simpl; by rewrite <-?app_assoc.
Qed.

End Invariants.

(** * Concrete runs *)

#[local] Existing Instance symbolic.




(** Nor is the event emitted for every resource notification: under the
    key "valueOf" [_notifyFns] inherits a function of the runtime, which
    is called and throws before the event. *)
Lemma inherited_key_no_event :
  notify (Some (notificationBatch valueOfNotification)) subscribed
  = (Thrown, subscribed,
     [CallInherited "valueOf" (NotifyArguments (Some ("NDI=", None)))]).
Proof. vm_compute. reflexivity. Qed.




Lemma async_response_callback_witness :
  _asyncFns pending !! id notFoundResponse = Some 3%nat
  ∧ traceOf (onAsyncResponse notFoundResponse pending)
    = [CallFn 3%nat
         (Some {| message := MsgString "not found"; innerError := None;
                  details := None; code := Some 404 |})
         None].
Proof.
  split; [vm_compute; reflexivity|].
  rewrite (async_response_callback notFoundResponse pending 3%nat);
    vm_compute; reflexivity.
Defined.

(** C4, as stated, fails: a start on a fresh object polls and enables
    handling without any delete of the pull channel; the one request
    before the poll is the delete of the webhook. *)
Lemma startNotifications_no_pull_delete :
  ∃ w, execs [CallStartNotifications defaultOptions 7%nat;
              CallbackDeleteResponds 0 None] new_world = Some w
       ∧ log w = [Request 0 v2NotificationCallbackDelete;
                  Request 1 v2NotificationPullGet;
                  Effect (CallFn 7%nat None None)]
       ∧ handleNotifications (api w) = true
       ∧ ∀ r, Request r v2NotificationPullDelete ∉ log w.
Proof.
  eexists. split; [vm_compute; reflexivity|].
  split; [reflexivity|]. split; [reflexivity|].
  intros r Hin. simpl in Hin.
  repeat (apply elem_of_cons in Hin as [Hin|Hin]; [discriminate Hin|]).
  by apply elem_of_nil in Hin.
Qed.

(** C5 at the failing input: the backend answers the delete with a 404
    and the caller of [deleteWebhook] is resolved with null. *)
Lemma deleteWebhook_404_resolves :
  ∃ w, execs [CallDeleteWebhook 7%nat;
              CallbackDeleteResponds 0
                (Some {| message := MsgNumber 404; innerError := None;
                         details := None; code := Some 404 |})] new_world = Some w
       ∧ log w = [Request 0 v2NotificationCallbackDelete;
                  Effect (CallFn 7%nat None None)].
Proof. eexists. split; vm_compute; reflexivity. Qed.

(** C6, as stated, fails: pulling is started, the first poll is answered
    and the next iteration is scheduled; then stop is called and
    completes; the timer still fires and a further fetch request (number
    3) goes out after the caller of stop was resolved. *)
Lemma stopNotifications_timer_still_fires :
  ∃ w, execs [CallStartNotifications defaultOptions 7%nat;
              CallbackDeleteResponds 0 None;
              PullGetResponds 1 None (Some emptyBatch);
              CallStopNotifications 8%nat;
              PullDeleteResponds 2 None;
              TimerFires 0] new_world = Some w
       ∧ log w = [Request 0 v2NotificationCallbackDelete;
                  Request 1 v2NotificationPullGet;
                  Effect (CallFn 7%nat None None);
                  SetTimeout 0 500;
                  Request 2 v2NotificationPullDelete;
                  Abort 1;
                  Effect (CallFn 8%nat None None);
                  Request 3 v2NotificationPullGet].
Proof. eexists. split; vm_compute; reflexivity. Qed.

(** The request that a stop aborts is the one held when its answer
    arrives: here the timer fired between the call and the answer, and
    the poll request aborted is the later one, number 2. *)
Lemma stopNotifications_effect_witness :
  inflight stopRequested !! 1%nat = Some (StopResponse 8%nat)
  ∧ _pollRequest (api stopRequested) = Some 2%nat
  ∧ ∃ w2, exec (PullDeleteResponds 1 None) stopRequested = Some w2
          ∧ log w2 = log stopRequested ++ [Abort 2; Effect (CallFn 8%nat None None)]
          ∧ handleNotifications (api w2) = false.
Proof.
  assert (Hr : inflight stopRequested !! 1%nat = Some (StopResponse 8%nat))
    by reflexivity.
  split; [exact Hr|]. split; [reflexivity|].
  destruct (stopNotifications_effect 8%nat polledOnce)
    as (_ & _ & _ & _ & Hanswer).
  destruct (Hanswer stopRequested 1%nat None Hr) as (w2 & Hexec & Hlog & Hapi & _).
  exists w2. split; [exact Hexec|]. split; [exact Hlog|]. by rewrite Hapi.
Defined.

(** ** Witnesses of the further properties *)

Lemma notify_calls_only_registered_witness :
  CallFn 3%nat None (Some (VDecoded ("NDI=", Some "text/plain")))
  ∈ traceOf (notify (Some (asyncBatch [okResponse])) pending)
  ∧ ∃ r, r ∈ [okResponse] ∧ _asyncFns pending !! id r = Some 3%nat.
Proof.
  assert (Hin : CallFn 3%nat None (Some (VDecoded ("NDI=", Some "text/plain")))
                ∈ traceOf (notify (Some (asyncBatch [okResponse])) pending)).
  { vm_compute. left. }
  split; [exact Hin|].
  destruct (notify_calls_only_registered _ _ _ Hin) as (r & Hr & Hfn & _).
  by exists r.
Defined.


Lemma value_operation_settles_at_once_witness :
  setResourceValue ∈ [getResourceValue; setResourceValue; executeResource]
  ∧ setResourceValue (Some "a1") 3%nat new_ConnectApi
    = (Normal tt, new_ConnectApi, [CallFn 3%nat None (Some (VString "a1"))]).
Proof.
  assert (Hop : setResourceValue (H := symbolic)
                ∈ [getResourceValue; setResourceValue; executeResource])
    by (right; left).
  split; [exact Hop|].
  destruct (value_operation_settles_at_once setResourceValue (Some "a1") 3%nat
              new_ConnectApi Hop) as (Hnow & _).
  exact (Hnow eq_refl).
Defined.

Lemma async_id_reuse_drops_first_caller_witness :
  handleNotifications handling = true
  ∧ 1%nat ≠ 2%nat
  ∧ (∀ k, _asyncFns handling !! k ≠ Some 1%nat)
  ∧ ∀ data err value,
      CallFn 1%nat err value
      ∉ traceOf (notify data
                   (stateOf (executeResource (Some "a1") 2%nat
                      (stateOf (getResourceValue (Some "a1") 1%nat handling))))).
Proof.
  assert (Hop1 : getResourceValue (H := symbolic)
                 ∈ [getResourceValue; setResourceValue; executeResource]) by left.
  assert (Hop2 : executeResource (H := symbolic)
                 ∈ [getResourceValue; setResourceValue; executeResource])
    by (right; right; left).
  assert (Hne : "a1" ≠ "") by done.
  assert (Hd : 1%nat ≠ 2%nat) by lia.
  assert (Hfresh : ∀ k, _asyncFns handling !! k ≠ Some 1%nat).
  { intros k. simpl. by rewrite lookup_empty. }
  destruct (async_id_reuse_drops_first_caller getResourceValue executeResource
              "a1" 1%nat 2%nat handling Hop1 Hop2 eq_refl Hne Hd Hfresh)
    as (_ & _ & _ & _ & Hnever).
  split_and!; [done..|exact Hnever].
Defined.

Lemma subscription_replaced_witness :
  normalizePath "3200/0/5500" = normalizePath "/3200/0/5500"
  ∧ 5%nat ≠ 6%nat
  ∧ (∀ k, _notifyFns new_ConnectApi !! k ≠ Some 5%nat)
  ∧ _notifyFns
      (stateOf (addResourceSubscription "device" "/3200/0/5500" (Some 6%nat) None 9%nat
                  subscribed))
    = <["device/3200/0/5500" := 6%nat]> ∅.
Proof.
  assert (Hd : 5%nat ≠ 6%nat) by lia.
  assert (Hfresh : ∀ k, _notifyFns new_ConnectApi !! k ≠ Some 5%nat).
  { intros k. simpl. by rewrite lookup_empty. }
  destruct (subscription_replaced "device" "3200/0/5500" "/3200/0/5500"
              5%nat 6%nat None None 9%nat 9%nat new_ConnectApi eq_refl Hd Hfresh)
    as (Hmap & _).
  split_and!; [done..|exact Hmap].
Defined.

Lemma subscription_deleted_witness :
  normalizePath "3200/0/5500" = normalizePath "/3200/0/5500"
  ∧ _notifyFns
      (stateOf (deleteResourceSubscription "device" "/3200/0/5500" None 9%nat subscribed))
    = _notifyFns new_ConnectApi.
Proof.
  destruct (subscription_deleted "device" "3200/0/5500" "/3200/0/5500"
              5%nat None None 9%nat 9%nat new_ConnectApi eq_refl)
    as (_ & Hback & _).
  split; [done|]. apply Hback. reflexivity.
Defined.





Lemma loops_never_grow_witness :
  Forall (λ ev, ¬ isStartCall ev)
    [PullGetResponds 0 None (Some emptyBatch); TimerFires 0; CallStopNotifications 8%nat]
  ∧ ¬ startPending (inflight (polling defaultOptions))
  ∧ ∃ w', execs [PullGetResponds 0 None (Some emptyBatch); TimerFires 0;
                 CallStopNotifications 8%nat] (polling defaultOptions) = Some w'
          ∧ (loops w' ≤ loops (polling defaultOptions))%nat.
Proof.
  assert (Hevs : Forall (λ ev, ¬ isStartCall (H := symbolic) ev)
    [PullGetResponds 0 None (Some emptyBatch); TimerFires 0; CallStopNotifications 8%nat]).
  { repeat constructor; by intros []. }
  assert (Hw : ¬ startPending (inflight (polling defaultOptions))).
  { intros (r & options & done & Hr). simpl in Hr.
    apply lookup_insert_Some in Hr as [[_ ?]|[_ Hr]]; [done|].
    by rewrite lookup_empty in Hr. }
  split; [exact Hevs|]. split; [exact Hw|].
  eexists. split; [reflexivity|].
  eapply (proj1 (loops_never_grow _ _ _ Hevs Hw _)).
  Unshelve. reflexivity.
Defined.

Lemma handling_stays_off_witness :
  Forall (λ ev, ¬ isStartCall ev ∧ ¬ isNotifyCall ev)
    [CallGetWebhook 7%nat; CallbackGetResponds 0 None "hook"; CallStopNotifications 8%nat]
  ∧ ¬ startPending (inflight new_world)
  ∧ handleNotifications (api new_world) = false
  ∧ ∃ w', execs [CallGetWebhook 7%nat; CallbackGetResponds 0 None "hook";
                 CallStopNotifications 8%nat] new_world = Some w'
          ∧ handleNotifications (api w') = false.
Proof.
  assert (Hevs : Forall (λ ev, ¬ isStartCall (H := symbolic) ev ∧ ¬ isNotifyCall ev)
    [CallGetWebhook 7%nat; CallbackGetResponds 0 None "hook"; CallStopNotifications 8%nat]).
  { repeat constructor; by intros []. }
  assert (Hw : ¬ startPending (inflight new_world)).
  { intros (r & options & done & Hr). simpl in Hr. by rewrite lookup_empty in Hr. }
  split; [exact Hevs|]. split; [exact Hw|]. split; [reflexivity|].
  eexists. split; [reflexivity|].
  eapply (proj1 (handling_stays_off _ _ _ Hevs Hw eq_refl _)).
  Unshelve. reflexivity.
Defined.
